(** * py-agterm: the terminal-driving engine of [src/py_agterm/AGTerm.py]

    A shallow embedding of the [AGTerm] class: the sanitizer ([ANSI_RE],
    [_sanitize]), the reader loop's append-and-trim step, the writer
    ([write_raw], [write], [send_control]), the ready-wait loop
    ([read_until_ready]) and the lifecycle operations ([is_alive], [close]).

    Raw terminal output is a [list byte]; a Python [str] is the list of its
    code points ([list Z]).  The parts of the Python runtime the class calls
    (slicing, [str.replace], [str.rstrip], the [in] operator, the UTF-8 codec,
    [re.sub]) are modelled in the modules [Py] and [Re]. *)

From Stdlib Require Import Strings.String Strings.Ascii Strings.Byte.
From Stdlib Require Import List ZArith Lia Bool QArith Lqa.
Import ListNotations.
Open Scope Z_scope.

(* ================================================================= *)
(** ** Python runtime values and the built-ins the class relies on *)

Module Py.

(** A byte of a [bytes] object as its integer value, and back. *)
Definition b2z (b : byte) : Z := Z.of_N (Byte.to_N b).

Definition z2b (z : Z) : byte :=
  match Byte.of_N (Z.to_N z) with
  | Some b => b
  | None => x00
  end.

(** A [str] literal of the source, as code points. *)
Definition str (s : string) : list Z :=
  map (fun a => Z.of_N (N_of_ascii a)) (list_ascii_of_string s).

(** [l[start:]].  A negative [start] counts from the end; the adjusted index
    is clamped to [0 .. len(l)] (CPython's [PySlice_AdjustIndices]). *)
Definition slice_from {A : Type} (start : Z) (l : list A) : list A :=
  let len := Z.of_nat (length l) in
  let i := if start <? 0 then Z.max (start + len) 0 else Z.min start len in
  skipn (Z.to_nat i) l.

(** [s.startswith(p)] and the substring test [m in t]. *)
Fixpoint startswith (p s : list Z) : bool :=
  match p, s with
  | [], _ => true
  | _ :: _, [] => false
  | a :: p', b :: s' => (a =? b) && startswith p' s'
  end.

Fixpoint contains (m t : list Z) : bool :=
  startswith m t ||
  match t with
  | [] => false
  | _ :: t' => contains m t'
  end.

(** [s.replace(old, new)]: occurrences are found left to right and do not
    overlap.  [skip] counts the characters of an occurrence still to pass. *)
Fixpoint replace_from (old new : list Z) (skip : nat) (s : list Z) : list Z :=
  match s with
  | [] => []
  | c :: s' =>
      match skip with
      | S k => replace_from old new k s'
      | O =>
          if startswith old s
          then new ++ replace_from old new (length old - 1) s'
          else c :: replace_from old new 0 s'
      end
  end.

Definition replace (old new s : list Z) : list Z :=
  match old with
  | [] => new ++ flat_map (fun c => c :: new) s
  | _ :: _ => replace_from old new 0 s
  end.

(** [ch.isspace()] for one code point (CPython's [_PyUnicode_IsWhitespace]). *)
Definition isspace (c : Z) : bool :=
  ((0x09 <=? c) && (c <=? 0x0D)) || ((0x1C <=? c) && (c <=? 0x20))
  || (c =? 0x85) || (c =? 0xA0) || (c =? 0x1680)
  || ((0x2000 <=? c) && (c <=? 0x200A))
  || (c =? 0x2028) || (c =? 0x2029) || (c =? 0x202F) || (c =? 0x205F)
  || (c =? 0x3000).

Fixpoint drop_while {A : Type} (p : A -> bool) (l : list A) : list A :=
  match l with
  | [] => []
  | x :: l' => if p x then drop_while p l' else l
  end.

(** [s.rstrip()]: the index moves down from the end while the character
    before it is whitespace. *)
Definition rstrip (s : list Z) : list Z := rev (drop_while isspace (rev s)).

(** Ordering of [str] values ([a <= b]): lexicographic on code points. *)
Fixpoint str_le (a b : list Z) : bool :=
  match a, b with
  | [], _ => true
  | _ :: _, [] => false
  | x :: a', y :: b' => (x <? y) || ((x =? y) && str_le a' b')
  end.

(** *** The UTF-8 codec *)

Definition REPLACEMENT : Z := 0xFFFD.

Definition is_cont (b : byte) : bool := (0x80 <=? b2z b) && (b2z b <=? 0xBF).

(** [data.decode("utf-8", errors="replace")].  Each ill-formed sequence is
    replaced by U+FFFD and decoding resumes at the first byte that could not
    continue it; a sequence cut short by the end of the data is replaced as a
    whole (CPython's [utf8_decode] with the [replace] error handler). *)
Fixpoint utf8_decode (s : list byte) : list Z :=
  match s with
  | [] => []
  | b1 :: s1 =>
    let c1 := b2z b1 in
    if c1 <? 0x80 then c1 :: utf8_decode s1
    else if c1 <? 0xC2 then REPLACEMENT :: utf8_decode s1
    else if c1 <? 0xE0 then
      match s1 with
      | [] => [REPLACEMENT]
      | b2 :: s2 =>
        if is_cont b2
        then (c1 * 64 + b2z b2 - (0xC0 * 64 + 0x80)) :: utf8_decode s2
        else REPLACEMENT :: utf8_decode s1
      end
    else if c1 <? 0xF0 then
      match s1 with
      | [] => [REPLACEMENT]
      | b2 :: s2 =>
        if negb (is_cont b2)
           || (if b2z b2 <? 0xA0 then c1 =? 0xE0 else c1 =? 0xED)
        then REPLACEMENT :: utf8_decode s1
        else
          match s2 with
          | [] => [REPLACEMENT]
          | b3 :: s3 =>
            if is_cont b3
            then (c1 * 4096 + b2z b2 * 64 + b2z b3
                  - (0xE0 * 4096 + 0x80 * 64 + 0x80)) :: utf8_decode s3
            else REPLACEMENT :: utf8_decode s2
          end
      end
    else if c1 <? 0xF5 then
      match s1 with
      | [] => [REPLACEMENT]
      | b2 :: s2 =>
        if negb (is_cont b2)
           || (if b2z b2 <? 0x90 then c1 =? 0xF0 else c1 =? 0xF4)
        then REPLACEMENT :: utf8_decode s1
        else
          match s2 with
          | [] => [REPLACEMENT]
          | b3 :: s3 =>
            if negb (is_cont b3) then REPLACEMENT :: utf8_decode s2
            else
              match s3 with
              | [] => [REPLACEMENT]
              | b4 :: s4 =>
                if is_cont b4
                then (c1 * 262144 + b2z b2 * 4096 + b2z b3 * 64 + b2z b4
                      - (0xF0 * 262144 + 0x80 * 4096 + 0x80 * 64 + 0x80))
                     :: utf8_decode s4
                else REPLACEMENT :: utf8_decode s3
              end
          end
      end
    else REPLACEMENT :: utf8_decode s1
  end.

(** A code point that UTF-8 can encode: in range and not a surrogate. *)
Definition is_scalar (c : Z) : bool :=
  (0 <=? c) && (c <=? 0x10FFFF) && negb ((0xD800 <=? c) && (c <=? 0xDFFF)).

Definition encode_char (c : Z) : list byte :=
  if c <? 0x80 then [z2b c]
  else if c <? 0x800 then [z2b (0xC0 + c / 64); z2b (0x80 + c mod 64)]
  else if c <? 0x10000 then
    [z2b (0xE0 + c / 4096); z2b (0x80 + (c / 64) mod 64); z2b (0x80 + c mod 64)]
  else
    [z2b (0xF0 + c / 262144); z2b (0x80 + (c / 4096) mod 64);
     z2b (0x80 + (c / 64) mod 64); z2b (0x80 + c mod 64)].

(** [s.encode()]: [None] stands for [UnicodeEncodeError] (a surrogate). *)
Fixpoint utf8_encode (s : list Z) : option (list byte) :=
  match s with
  | [] => Some []
  | c :: s' =>
    if is_scalar c then
      match utf8_encode s' with
      | Some bs => Some (encode_char c ++ bs)
      | None => None
      end
    else None
  end.

End Py.

(* ================================================================= *)
(** ** Regular expressions as [re] runs them *)

Module Re.

Section Regex.
Context {A : Type}.

(** The fragment of pattern syntax the two patterns of the source use.
    Repetition is only ever applied to a single character class there;
    [greedy = false] is the lazy [*?]. *)
Inductive regex : Type :=
| Eps
| Chr (p : A -> bool)
| Seq (r1 r2 : regex)
| Alt (r1 r2 : regex)
| Star (greedy : bool) (p : A -> bool).

(** Remainders left by [p*], longest match first, and by [p*?], shortest
    first. *)
Fixpoint star_greedy (p : A -> bool) (s : list A) : list (list A) :=
  match s with
  | [] => [[]]
  | c :: s' => if p c then star_greedy p s' ++ [s] else [s]
  end.

Fixpoint star_lazy (p : A -> bool) (s : list A) : list (list A) :=
  s :: match s with
       | [] => []
       | c :: s' => if p c then star_lazy p s' else []
       end.

(** Every way [r] matches a prefix of [s], as the remainder left after the
    match, in the order the backtracking matcher tries them: the left
    alternative before the right one, and each repetition in its own order. *)
Fixpoint matches (r : regex) (s : list A) : list (list A) :=
  match r with
  | Eps => [s]
  | Chr p =>
      match s with
      | c :: s' => if p c then [s'] else []
      | [] => []
      end
  | Seq r1 r2 => flat_map (matches r2) (matches r1 s)
  | Alt r1 r2 => matches r1 s ++ matches r2 s
  | Star greedy p => if greedy then star_greedy p s else star_lazy p s
  end.

(** [r.match(s)]: the first way that succeeds. *)
Definition rmatch (r : regex) (s : list A) : option (list A) := hd_error (matches r s).

(** [r.sub("", s)]: at each position from the left the pattern is tried; a
    match is dropped and the scan resumes behind it, otherwise the character
    is kept.  [skip] counts the characters of a match still to drop.  (Both
    patterns of the source begin with a literal, so no match is empty.) *)
Fixpoint sub_from (r : regex) (skip : nat) (s : list A) : list A :=
  match s with
  | [] => []
  | c :: s' =>
      match skip with
      | S k => sub_from r k s'
      | O =>
          match rmatch r s with
          | Some rest =>
              match (length s - length rest)%nat with
              | S k => sub_from r k s'
              | O => c :: sub_from r 0 s'
              end
          | None => c :: sub_from r 0 s'
          end
      end
  end.

Definition sub (r : regex) (s : list A) : list A := sub_from r 0 s.

End Regex.

Arguments regex A : clear implicits.

(** A literal word, as the sequence of its characters. *)
Fixpoint word {A : Type} (eqb : A -> A -> bool) (w : list A) : regex A :=
  match w with
  | [] => Eps
  | [c] => Chr (eqb c)
  | c :: w' => Seq (Chr (eqb c)) (word eqb w')
  end.

End Re.

(* ================================================================= *)
(** ** The sanitizer *)

Module AGTerm.
Import Py Re.

Definition byte_is (n : Z) (b : byte) : bool := b2z b =? n.
Definition byte_in (lo hi : Z) (b : byte) : bool := (lo <=? b2z b) && (b2z b <=? hi).

(** [ANSI_RE]:
    [\x1b(?:[@-Z\\-_]|\[[0-?]*[ -/]*[@-~]|\][0-9]*;[\s\S]*?(?:\x07|\x1b\\))].
    The class [[@-Z\\-_]] is the two ranges [@]..[Z] and [\]..[_]. *)
Definition ANSI_RE : regex byte :=
  Seq (Chr (byte_is 0x1B))
    (Alt (Chr (fun b => byte_in 0x40 0x5A b || byte_in 0x5C 0x5F b))
    (Alt (Seq (Chr (byte_is 0x5B))
         (Seq (Star true (byte_in 0x30 0x3F))
         (Seq (Star true (byte_in 0x20 0x2F))
              (Chr (byte_in 0x40 0x7E)))))
         (Seq (Chr (byte_is 0x5D))
         (Seq (Star true (byte_in 0x30 0x39))
         (Seq (Chr (byte_is 0x3B))
         (Seq (Star false (fun _ => true))
              (Alt (Chr (byte_is 0x07))
                   (Seq (Chr (byte_is 0x1B)) (Chr (byte_is 0x5C)))))))))).

(** The pattern of step 3, [133;[A-Z];.*?\x07], on text; [.] is any
    character but a linefeed. *)
Definition ARTIFACT_RE : regex Z :=
  Seq (word Z.eqb (str "133;"))
  (Seq (Chr (fun c => (0x41 <=? c) && (c <=? 0x5A)))
  (Seq (Chr (Z.eqb 0x3B))
  (Seq (Star false (fun c => negb (c =? 0x0A)))
       (Chr (Z.eqb 0x07))))).

(** The final filter: [ch >= " " or ch in "\n\t"]. *)
Definition keep (ch : Z) : bool := (0x20 <=? ch) || contains [ch] (str (String "010" (String "009" EmptyString))).

Definition sanitize (data : list byte) : list Z :=
  match data with
  | [] => []
  | _ :: _ =>
    let clean := sub ANSI_RE data in
    let text := utf8_decode clean in
    let text := replace [0x0D] [0x0A] (replace [0x0D; 0x0A] [0x0A] text) in
    let text := sub ARTIFACT_RE text in
    filter keep text
  end.


(* ================================================================= *)
(** ** The session object *)

(** [subprocess.Popen]: [returncode] is what [poll()] reports, [None] while
    the child runs. *)
Record Popen : Type := { returncode : option Z }.

(** The fields of an [AGTerm] instance the operations below read or write.
    [pty_input] is not a field of the class: it records the bytes [os.write]
    has delivered to the terminal behind [master_fd]. *)
Record session : Type := {
  max_history : Z;
  markers : list (list Z);
  master_fd : option Z;
  proc : option Popen;
  history : list byte;
  buffer : list byte;
  _running : bool;
  pty_input : list byte
}.

Definition set_buffer (b : list byte) (st : session) : session :=
  {| max_history := max_history st; markers := markers st;
     master_fd := master_fd st; proc := proc st; history := history st;
     buffer := b; _running := _running st; pty_input := pty_input st |}.

Definition set_history (h : list byte) (st : session) : session :=
  {| max_history := max_history st; markers := markers st;
     master_fd := master_fd st; proc := proc st; history := h;
     buffer := buffer st; _running := _running st; pty_input := pty_input st |}.

Definition set_running (r : bool) (st : session) : session :=
  {| max_history := max_history st; markers := markers st;
     master_fd := master_fd st; proc := proc st; history := history st;
     buffer := buffer st; _running := r; pty_input := pty_input st |}.

Definition set_master_fd (fd : option Z) (st : session) : session :=
  {| max_history := max_history st; markers := markers st;
     master_fd := fd; proc := proc st; history := history st;
     buffer := buffer st; _running := _running st; pty_input := pty_input st |}.

Definition set_proc (p : option Popen) (st : session) : session :=
  {| max_history := max_history st; markers := markers st;
     master_fd := master_fd st; proc := p; history := history st;
     buffer := buffer st; _running := _running st; pty_input := pty_input st |}.

Definition set_pty_input (w : list byte) (st : session) : session :=
  {| max_history := max_history st; markers := markers st;
     master_fd := master_fd st; proc := proc st; history := history st;
     buffer := buffer st; _running := _running st; pty_input := w |}.

(** [ready_markers or ["$ ", "# ", "pwndbg> ", "(gdb) "]] of [__init__]. *)
Definition init_markers (ready_markers : option (list (list Z))) : list (list Z) :=
  match ready_markers with
  | Some (m :: ms) => m :: ms
  | _ => [str "$ "; str "# "; str "pwndbg> "; str "(gdb) "]
  end.

Inductive exn : Type :=
| PtyError (msg : list Z)
| PtyTimeoutError (msg : list Z)
| TypeError
| ValueError
| UnicodeEncodeError.

Inductive result (A : Type) : Type :=
| Ok (a : A)
| Raise (e : exn).
Arguments Ok {A} a.
Arguments Raise {A} e.

(* ----------------------------------------------------------------- *)
(** *** Stream reader *)

(** The block of [_reader_loop] that runs under the lock for a chunk. *)
Definition reader_append (chunk : list byte) (st : session) : session :=
  let st := set_buffer (buffer st ++ chunk) st in
  let st := set_history (history st ++ chunk) st in
  if Z.of_nat (length (history st)) >? max_history st
  then set_history (slice_from (- max_history st) (history st)) st
  else st.

(** What one turn of the loop finds: [select] timed out, [os.read] returned
    a chunk (empty at end of stream), or either of them raised. *)
Inductive poll : Type :=
| NotReady
| Data (chunk : list byte)
| IOError.

Fixpoint _reader_loop (polls : list poll) (st : session) : session :=
  if negb (_running st) then set_running false st
  else
    match polls with
    | [] => st
    | NotReady :: ps => _reader_loop ps st
    | Data [] :: _ => set_running false st
    | Data chunk :: ps => _reader_loop ps (reader_append chunk st)
    | IOError :: _ => set_running false st
    end.

(* ----------------------------------------------------------------- *)
(** *** Writer *)

(** Truth value of [self.master_fd]: [None] and descriptor 0 are false. *)
Definition fd_open (fd : option Z) : bool :=
  match fd with
  | Some n => negb (n =? 0)
  | None => false
  end.

(** [os.write] is taken to deliver all of [data]. *)
Definition write_raw (data : list byte) (st : session) : session :=
  if fd_open (master_fd st) then set_pty_input (pty_input st ++ data) st else st.

Definition write (text : list Z) (st : session) : result unit * session :=
  match utf8_encode (rstrip text ++ str (String "010" EmptyString)) with
  | Some data => (Ok tt, write_raw data st)
  | None => (Raise UnicodeEncodeError, st)
  end.

(** [ord(s)]: defined on strings of length one. *)
Definition ord (s : list Z) : option Z :=
  match s with
  | [c] => Some c
  | _ => None
  end.

Section SendControl.

(** [str.upper], which follows the case mappings of the Unicode database. *)
Variable upper : list Z -> list Z.

Definition send_control (char : list Z) (st : session) : result unit * session :=
  let char := upper char in
  if str_le (str "A") char && str_le char (str "Z") then
    match ord char with
    | None => (Raise TypeError, st)
    | Some o =>
        let n := o - 0x41 + 1 in
        if (0 <=? n) && (n <? 256)
        then (Ok tt, write_raw [z2b n] st)
        else (Raise ValueError, st)
    end
  else (Ok tt, st).

End SendControl.

(** [str.upper] on the code points U+0000..U+00FF (Basic Latin and Latin-1
    Supplement); other code points are left as they are. *)
Definition upper_char_latin1 (c : Z) : list Z :=
  if (0x61 <=? c) && (c <=? 0x7A) then [c - 0x20]
  else if c =? 0xB5 then [0x39C]
  else if c =? 0xDF then [0x53; 0x53]
  else if (0xE0 <=? c) && (c <=? 0xFE) && negb (c =? 0xF7) then [c - 0x20]
  else if c =? 0xFF then [0x178]
  else [c].

Definition upper_latin1 (s : list Z) : list Z := flat_map upper_char_latin1 s.

(* ----------------------------------------------------------------- *)
(** *** Lifecycle *)

(** The value of [self._running and self.proc and self.proc.poll() is None]. *)
Inductive pyvalue : Type :=
| PyBool (b : bool)
| PyNone.

Definition truthy (v : pyvalue) : bool :=
  match v with
  | PyBool b => b
  | PyNone => false
  end.

Definition is_alive (st : session) : pyvalue :=
  if negb (_running st) then PyBool false
  else
    match proc st with
    | None => PyNone
    | Some p =>
        match returncode p with
        | None => PyBool true
        | Some _ => PyBool false
        end
    end.

(** [close].  [reaped] is the exit status when [killpg] and the 0.2 s
    [proc.wait] both succeed, [None] when either raises (the failure is
    swallowed).  The join of the reader thread changes no field. *)
Definition close (reaped : option Z) (st : session) : session :=
  let st := set_running false st in
  let st :=
    match proc st, reaped with
    | Some p, Some rc =>
        match returncode p with
        | None => set_proc (Some {| returncode := Some rc |}) st
        | Some _ => st
        end
    | _, _ => st
    end in
  if fd_open (master_fd st) then set_master_fd None st else st.

(* ----------------------------------------------------------------- *)
(** *** Ready-wait engine *)

(** The [for m in self.markers] scan: the first marker, in list order, that
    occurs in [text]. *)
Fixpoint scan_markers (ms : list (list Z)) (text : list Z) : option (list Z) :=
  match ms with
  | [] => None
  | m :: ms' => if contains m text then Some m else scan_markers ms' text
  end.

(** What other threads do to the session while [cond.wait] has released the
    lock. *)
Inductive event : Type :=
| ReaderChunk (chunk : list byte)
| ReaderExit
| ProcExit (rc : Z)
| Closed (reaped : option Z).

Definition apply_event (st : session) (e : event) : session :=
  match e with
  | ReaderChunk chunk => reader_append chunk st
  | ReaderExit => set_running false st
  | ProcExit rc =>
      match proc st with
      | Some p =>
          match returncode p with
          | None => set_proc (Some {| returncode := Some rc |}) st
          | Some _ => st
          end
      | None => st
      end
  | Closed reaped => close reaped st
  end.

Definition apply_events (evs : list event) (st : session) : session :=
  fold_left apply_event evs st.

(** How a call of [read_until_ready] stands when the modelled trace ends. *)
Inductive outcome : Type :=
| Returned (text : list Z)
| Raised (e : exn)
| Waiting.

Section ReadyWait.

(** [repr] of a [str]. *)
Variable repr : list Z -> list Z.

(** [PtyTimeoutError(message, last_output)]: the text handed to
    [Exception.__init__]. *)
Definition PtyTimeoutError_init (message last_output : list Z) : exn :=
  PtyTimeoutError (message ++ str " | Buffer: " ++ repr (slice_from (-150) last_output)).

(** The [while True] loop.  [clock i] is what [time.monotonic()] returns at
    the deadline check of turn [i] (seconds); each [cond.wait] takes the next
    element of [env], the events that happen before it returns.  The result
    carries the number of waits performed. *)
Fixpoint ready_loop (deadline : Q) (clock : nat -> Q) (env : list (list event))
    (i : nat) (st : session) : outcome * session * nat :=
  let current_text := sanitize (buffer st) in
  match scan_markers (markers st) current_text with
  | Some _ => (Returned current_text, set_buffer [] st, i)
  | None =>
      let remaining := (deadline - clock i)%Q in
      if Qle_bool remaining 0 then
        (Raised (PtyTimeoutError_init (str "Timeout") current_text), st, i)
      else if negb (truthy (is_alive st)) then
        (Raised (PtyError (str "Subprocess died")), st, i)
      else
        match env with
        | [] => (Waiting, st, i)
        | evs :: env' => ready_loop deadline clock env' (S i) (apply_events evs st)
        end
  end.

(** [read_until_ready(timeout_ms)]; [t0] is the clock when the deadline is
    computed. *)
Definition read_until_ready (timeout_ms : Z) (t0 : Q) (clock : nat -> Q)
    (env : list (list event)) (st : session) : outcome * session * nat :=
  let deadline := (t0 + inject_Z timeout_ms / 1000)%Q in
  ready_loop deadline clock env 0 st.

End ReadyWait.

End AGTerm.

Import Py Re AGTerm.

(* ================================================================= *)
(** ** Further operations of the class *)

(** A [dict] with [str] keys, in insertion order; a key occurs once. *)
Definition dict : Type := list (string * string).

Fixpoint dict_get (k : string) (d : dict) : option string :=
  match d with
  | [] => None
  | (k', v) :: d' => if String.eqb k k' then Some v else dict_get k d'
  end.

(** [d[k] = v]: the value is replaced where the key stands, or the pair is
    added at the end. *)
Fixpoint dict_set (k v : string) (d : dict) : dict :=
  match d with
  | [] => [(k, v)]
  | (k', v') :: d' =>
      if String.eqb k k' then (k', v) :: d' else (k', v') :: dict_set k v d'
  end.

(** The [env] of [start]: [{**os.environ, "TERM": "dumb", ...}]. *)
Definition child_env (environ : dict) : dict :=
  dict_set "INSIDE_EMACS" "1"
    (dict_set "VTE_VERSION" "0"
      (dict_set "PROMPT_COMMAND" ""
        (dict_set "PS1" "$ "
          (dict_set "TERM" "dumb" environ)))).

(** [start], as it changes the session.  [master] is the controller
    descriptor [pty.openpty] returns; [spawned] tells whether
    [subprocess.Popen] returned a process ([false]: it raised, and the
    exception leaves [start] after [master_fd] was set).  The first component
    of the result is [spawned]. *)
Definition start (master : Z) (spawned : bool) (st : session) : bool * session :=
  let st := set_master_fd (Some master) st in
  if spawned
  then (true, set_running true (set_proc (Some {| returncode := None |}) st))
  else (false, st).

(** The bytes a run of [_reader_loop] takes in: the chunks up to the first
    empty read or error. *)
Fixpoint received (polls : list poll) : list byte :=
  match polls with
  | [] => []
  | NotReady :: ps => received ps
  | Data [] :: _ => []
  | Data chunk :: ps => chunk ++ received ps
  | IOError :: _ => []
  end.

(** What [restart] gives back. *)
Inductive restarted : Type :=
| SpawnFailed
| NoWait
| Waited (o : outcome) (waits : nat).

Section Commands.

Variable repr : list Z -> list Z.

(** [send_and_read_until_ready(cmd, timeout_ms)]: an exception of [write]
    leaves before the read.  The write is done without the lock, so other
    threads run between it and the moment the read first takes the lock:
    [arrived] is what they do then (the echo and the first output of the
    command can already be in the buffer). *)
Definition send_and_read_until_ready (cmd : list Z) (timeout_ms : Z) (t0 : Q)
    (clock : nat -> Q) (arrived : list event) (env : list (list event))
    (st : session) : outcome * session * nat :=
  match write cmd st with
  | (Raise e, st') => (Raised e, st', 0%nat)
  | (Ok _, st') =>
      read_until_ready repr timeout_ms t0 clock env (apply_events arrived st')
  end.

(** [restart(wait_for_prompt, timeout_ms)]: [close], both accumulators
    cleared, [start], then the optional wait for the prompt. *)
Definition restart (wait_for_prompt : bool) (timeout_ms : Z)
    (reaped : option Z) (master : Z) (spawned : bool)
    (t0 : Q) (clock : nat -> Q) (env : list (list event)) (st : session)
    : restarted * session :=
  let st := close reaped st in
  let st := set_history [] (set_buffer [] st) in
  match start master spawned st with
  | (false, st) => (SpawnFailed, st)
  | (true, st) =>
      if wait_for_prompt then
        match read_until_ready repr timeout_ms t0 clock env st with
        | (o, st', waits) => (Waited o waits, st')
        end
      else (NoWait, st)
  end.

End Commands.

(* ================================================================= *)
(** ** Notions the properties are stated with *)

(** Line-ending normalisation as one pass over the text: a carriage return
    together with a linefeed that follows it, or alone, gives one linefeed;
    every other character stays. *)
Fixpoint crlf_to_lf (s : list Z) : list Z :=
  match s with
  | [] => []
  | c :: s' =>
      if c =? 0x0D then
        0x0A :: match s' with
                | [] => []
                | d :: s'' => if d =? 0x0A then crlf_to_lf s'' else crlf_to_lf s'
                end
      else c :: crlf_to_lf s'
  end.

(** Number of line endings of a text: CR LF pairs, bare carriage returns and
    bare linefeeds, each counted once. *)
Fixpoint line_breaks (s : list Z) : nat :=
  match s with
  | [] => 0
  | c :: s' =>
      if c =? 0x0D then
        S (match s' with
           | [] => 0
           | d :: s'' => if d =? 0x0A then line_breaks s'' else line_breaks s'
           end)
      else if c =? 0x0A then S (line_breaks s')
      else line_breaks s'
  end.

Definition linefeeds (s : list Z) : list Z := filter (Z.eqb 0x0A) s.

(** Control characters: the C0 range, DEL and the C1 range (Unicode general
    category Cc). *)
Definition is_control (c : Z) : bool :=
  ((0 <=? c) && (c <=? 0x1F)) || ((0x7F <=? c) && (c <=? 0x9F)).

Definition ESC : Z := 0x1B.

(** [t] is the end of [s]. *)
Definition suffix_of {A : Type} (t s : list A) : Prop := exists pre, s = pre ++ t.

(** *** Notions about patterns and code points *)

(** Every class of [r] only accepts characters satisfying [Q]. *)
Fixpoint classes_within {A : Type} (Q : A -> Prop) (r : regex A) : Prop :=
  match r with
  | Eps => True
  | Chr p => forall c, p c = true -> Q c
  | Seq r1 r2 => classes_within Q r1 /\ classes_within Q r2
  | Alt r1 r2 => classes_within Q r1 /\ classes_within Q r2
  | Star _ p => forall c, p c = true -> Q c
  end.

(** Every match of [r] passes a character satisfying [q]. *)
Fixpoint needs {A : Type} (q : A -> bool) (r : regex A) : Prop :=
  match r with
  | Eps => False
  | Chr p => forall c, p c = true -> q c = true
  | Seq r1 r2 => needs q r1 \/ needs q r2
  | Alt r1 r2 => needs q r1 /\ needs q r2
  | Star _ _ => False
  end.

(** [rest] is what remains of [s] behind a prefix whose characters are in [Q]. *)
Definition consumed {A : Type} (Q : A -> Prop) (s rest : list A) : Prop :=
  exists pre, s = pre ++ rest /\ Forall Q pre.

(** A code point that can be encoded, as a proposition. *)
Definition scalar (c : Z) : Prop := is_scalar c = true.

(** *** Classes of bytes in escape sequences *)

(** The parameter, intermediate and final bytes of a CSI sequence
    ([[0-?]], [[ -/]], [[@-~]]), the second byte of a two-byte escape
    ([[@-Z\\-_]]), and printable ASCII. *)
Definition csi_param (b : byte) : Prop := 0x30 <= b2z b <= 0x3F.
Definition csi_intermediate (b : byte) : Prop := 0x20 <= b2z b <= 0x2F.
Definition csi_final (b : byte) : Prop := 0x40 <= b2z b <= 0x7E.
Definition escape_letter (b : byte) : Prop :=
  0x40 <= b2z b <= 0x5A \/ 0x5C <= b2z b <= 0x5F.
Definition printable (b : byte) : Prop := 0x20 <= b2z b <= 0x7E.

(** Text the final filter lets through. *)
Definition clean (ch : Z) : Prop := 0x20 <= ch \/ ch = 0x0A \/ ch = 0x09.

(** *** Sample values, for instantiating the statements *)

(** A running session on descriptor 3 with the default markers, whose
    buffer holds [b"hi\r\n$ "]. *)
Definition sample_session : session :=
  {| max_history := 5 * 1024 * 1024;
     markers := init_markers None;
     master_fd := Some 3;
     proc := Some {| returncode := None |};
     history := [x68; x69; x0d; x0a; x24; x20];
     buffer := [x68; x69; x0d; x0a; x24; x20];
     _running := true;
     pty_input := [] |}.

(** The same session while the command is still printing: no prompt yet. *)
Definition busy_session : session := set_buffer [x68; x69; x0d; x0a] sample_session.

(** A clock that reads 0 s at the first deadline check and 0.5 s at every
    later one. *)
Definition wake_clock (i : nat) : Q :=
  match i with
  | O => 0
  | S _ => 1 # 2
  end.

(** [repr] on text made of printable ASCII without quote or backslash:
    the text between single quotes. *)
Definition repr_plain (t : list Z) : list Z := 0x27 :: t ++ [0x27].

(* ================================================================= *)
(** ** Facts about the regular-expression engine *)

Ltac arith := Z.div_mod_to_equations; lia.

(** Settle the comparisons of the goal that the context decides. *)
Ltac simp_cmp :=
  repeat match goal with
  | |- context [?a <? ?b] =>
      first [ rewrite (proj2 (Z.ltb_lt a b)) by arith
            | rewrite (proj2 (Z.ltb_ge a b)) by arith ]
  | |- context [?a <=? ?b] =>
      first [ rewrite (proj2 (Z.leb_le a b)) by arith
            | rewrite (proj2 (Z.leb_gt a b)) by arith ]
  | |- context [?a =? ?b] =>
      first [ rewrite (proj2 (Z.eqb_eq a b)) by arith
            | rewrite (proj2 (Z.eqb_neq a b)) by arith ]
  end;
  cbn [andb orb negb]; cbv match.

(** Follow every branch of the decoder. *)
Ltac split_cmp :=
  repeat (cbn [andb orb negb]; cbv match;
    match goal with
    | |- context [match ?l with [] => _ | _ :: _ => _ end] => is_var l; destruct l
    | |- context [?a <? ?b] => destruct (Z.ltb_spec a b)
    | |- context [?a <=? ?b] => destruct (Z.leb_spec a b)
    | |- context [?a =? ?b] => destruct (Z.eqb_spec a b)
    end).

#[local] Arguments Z.eqb : simpl never.
#[local] Arguments Z.leb : simpl never.
#[local] Arguments Z.ltb : simpl never.
#[local] Arguments Z.gtb : simpl never.

Section RegexFacts.
Context {A : Type}.
Implicit Types (r : regex A) (s rest : list A).

Lemma consumed_refl Q s : consumed Q s s.
Proof. exists []. split; [reflexivity | constructor]. Qed.

Lemma consumed_trans Q s t u : consumed Q s t -> consumed Q t u -> consumed Q s u.
Proof.
  intros [p1 [-> H1]] [p2 [-> H2]].
  exists (p1 ++ p2). split.
  - now rewrite app_assoc.
  - apply Forall_app. now split.
Qed.

Lemma consumed_cons Q c s rest : Q c -> consumed Q s rest -> consumed Q (c :: s) rest.
Proof.
  intros Hc [pre [-> Hpre]]. exists (c :: pre). split; [reflexivity | now constructor].
Qed.

Lemma star_greedy_consumed Q p s :
  (forall c, p c = true -> Q c) ->
  Forall (consumed Q s) (star_greedy p s).
Proof.
  intros Hp. induction s as [|c s IH]; simpl.
  - constructor; [apply consumed_refl | constructor].
  - destruct (p c) eqn:Hc.
    + apply Forall_app. split.
      * eapply Forall_impl; [|exact IH].
        intros rest Hrest. apply consumed_cons; auto.
      * constructor; [apply consumed_refl | constructor].
    + constructor; [apply consumed_refl | constructor].
Qed.

Lemma star_lazy_consumed Q p s :
  (forall c, p c = true -> Q c) ->
  Forall (consumed Q s) (star_lazy p s).
Proof.
  intros Hp. induction s as [|c s IH]; simpl.
  - constructor; [apply consumed_refl | constructor].
  - constructor; [apply consumed_refl |].
    destruct (p c) eqn:Hc; [|constructor].
    eapply Forall_impl; [|exact IH].
    intros rest Hrest. apply consumed_cons; auto.
Qed.

(** A match only passes characters its classes accept. *)
Lemma matches_consumed Q r :
  classes_within Q r -> forall s, Forall (consumed Q s) (matches r s).
Proof.
  induction r as [|p|r1 IH1 r2 IH2|r1 IH1 r2 IH2|g p]; simpl; intros Hr s.
  - constructor; [apply consumed_refl | constructor].
  - destruct s as [|c s]; [constructor|].
    destruct (p c) eqn:Hc; [|constructor].
    constructor; [|constructor].
    exists [c]. split; [reflexivity | constructor; auto].
  - destruct Hr as [Hr1 Hr2].
    apply Forall_forall. intros rest Hin.
    apply in_flat_map in Hin. destruct Hin as [mid [Hmid Hrest]].
    specialize (IH1 Hr1 s). rewrite Forall_forall in IH1.
    specialize (IH2 Hr2 mid). rewrite Forall_forall in IH2.
    eapply consumed_trans; eauto.
  - destruct Hr as [Hr1 Hr2]. apply Forall_app. split; auto.
  - destruct g; [apply star_greedy_consumed | apply star_lazy_consumed]; assumption.
Qed.

Lemma classes_within_True r : classes_within (fun _ => True) r.
Proof. induction r; simpl; auto. Qed.

Lemma matches_suffix r s rest :
  In rest (matches r s) -> exists pre, s = pre ++ rest.
Proof.
  intros Hin.
  pose proof (matches_consumed _ r (classes_within_True r) s) as H.
  rewrite Forall_forall in H. destruct (H _ Hin) as [pre [Hpre _]]. eauto.
Qed.

Lemma rmatch_In r s rest : rmatch r s = Some rest -> In rest (matches r s).
Proof.
  unfold rmatch. destruct (matches r s); simpl; [discriminate|].
  intros [= ->]. now left.
Qed.

Lemma rmatch_consumed Q r s rest :
  classes_within Q r -> rmatch r s = Some rest -> consumed Q s rest.
Proof.
  intros Hr Hm. apply rmatch_In in Hm.
  pose proof (matches_consumed Q r Hr s) as H.
  rewrite Forall_forall in H. auto.
Qed.

(** A pattern that needs a character the text does not have never matches. *)
Lemma needs_no_match q r :
  needs q r -> forall s, Forall (fun c => q c = false) s -> matches r s = [].
Proof.
  induction r as [|p|r1 IH1 r2 IH2|r1 IH1 r2 IH2|g p]; simpl; intros Hr s Hs.
  - contradiction.
  - destruct s as [|c s]; [reflexivity|].
    destruct (p c) eqn:Hc; [|reflexivity].
    inversion Hs; subst. rewrite (Hr c Hc) in *. discriminate.
  - destruct Hr as [Hr|Hr].
    + now rewrite IH1.
    + assert (Hall : forall mid, In mid (matches r1 s) -> matches r2 mid = []).
      { intros mid Hmid. apply IH2; [assumption|].
        destruct (matches_suffix _ _ _ Hmid) as [pre ->].
        apply Forall_app in Hs. tauto. }
      induction (matches r1 s) as [|m ms IHms]; simpl; [reflexivity|].
      rewrite Hall by now left. simpl. apply IHms.
      intros mid Hmid. apply Hall. now right.
  - destruct Hr as [Hr1 Hr2]. now rewrite IH1, IH2.
  - contradiction.
Qed.

(** *** Substitution *)

Lemma sub_from_skipn r k s : sub_from r k s = sub r (skipn k s).
Proof.
  revert s. induction k as [|k IH]; intros s.
  - reflexivity.
  - destruct s as [|c s]; [reflexivity|]. simpl. apply IH.
Qed.

Lemma sub_nil r : sub r [] = [].
Proof. reflexivity. Qed.

Lemma sub_no_match r c s : rmatch r (c :: s) = None -> sub r (c :: s) = c :: sub r s.
Proof. unfold sub. simpl. intros ->. reflexivity. Qed.

Lemma sub_cons r c s :
  sub r (c :: s) =
  match rmatch r (c :: s) with
  | Some rest =>
      match (length (c :: s) - length rest)%nat with
      | S k => sub_from r k s
      | O => c :: sub r s
      end
  | None => c :: sub r s
  end.
Proof. reflexivity. Qed.

Lemma sub_match r s pre rest :
  rmatch r s = Some rest -> s = pre ++ rest -> pre <> [] -> sub r s = sub r rest.
Proof.
  intros Hm -> Hpre.
  destruct pre as [|c pre]; [congruence|].
  rewrite <- app_comm_cons in *. rewrite sub_cons, Hm.
  replace (length (c :: pre ++ rest) - length rest)%nat with (S (length pre))
    by (cbn [length]; rewrite length_app; lia).
  rewrite sub_from_skipn.
  now rewrite skipn_app, skipn_all, Nat.sub_diag.
Qed.

(** Substitution only removes characters. *)
Lemma sub_from_incl r k s c : In c (sub_from r k s) -> In c s.
Proof.
  revert k. induction s as [|x s IH]; intros k; [simpl; tauto|].
  destruct k as [|k].
  - change (sub_from r 0 (x :: s)) with (sub r (x :: s)). rewrite sub_cons.
    destruct (rmatch r (x :: s)) as [rest|].
    + destruct (length (x :: s) - length rest)%nat.
      * intros [H|H]; [now left | right; eauto].
      * intros H. right; eauto.
    + intros [H|H]; [now left | right; eauto].
  - change (sub_from r (S k) (x :: s)) with (sub_from r k s).
    intros H. right; eauto.
Qed.

Lemma sub_incl r s c : In c (sub r s) -> In c s.
Proof. apply sub_from_incl. Qed.

(** Without the character the pattern needs, the text is left as it is. *)
Lemma sub_needs_id q r s :
  needs q r -> Forall (fun c => q c = false) s -> sub r s = s.
Proof.
  intros Hr. induction s as [|c s IH]; intros Hs; [reflexivity|].
  rewrite sub_no_match.
  - f_equal. apply IH. now inversion Hs.
  - unfold rmatch. now rewrite (needs_no_match q r Hr).
Qed.

End RegexFacts.

Section SubKeeps.
Context {A : Type}.

Lemma filter_none (q : A -> bool) (l : list A) :
  Forall (fun c => q c = false) l -> filter q l = [].
Proof.
  induction 1 as [|c l Hc _ IH]; simpl; [reflexivity|]. now rewrite Hc.
Qed.

(** Characters that no class of the pattern accepts survive substitution,
    in their order. *)
Lemma sub_filter_kept (q : A -> bool) (r : regex A) :
  classes_within (fun c => q c = false) r ->
  forall s, filter q (sub r s) = filter q s.
Proof.
  intros Hr s.
  remember (length s) as n eqn:Hn.
  revert s Hn. induction n as [n IH] using lt_wf_ind. intros s Hn.
  destruct s as [|c s]; [reflexivity|].
  assert (Htail : filter q (c :: sub r s) = filter q (c :: s)).
  { simpl. rewrite (IH (length s)); [reflexivity| simpl in Hn; lia | reflexivity]. }
  destruct (rmatch r (c :: s)) as [rest|] eqn:Hm.
  - destruct (rmatch_consumed _ _ _ _ Hr Hm) as [pre [Hs Hpre]].
    destruct pre as [|x pre].
    + simpl in Hs. subst rest. rewrite sub_cons, Hm, Nat.sub_diag. exact Htail.
    + rewrite (sub_match r _ (x :: pre) rest Hm Hs) by discriminate.
      rewrite Hs, filter_app, (filter_none q (x :: pre) Hpre). simpl.
      apply (IH (length rest)); [|reflexivity].
      subst n. rewrite Hs, length_app. simpl. lia.
  - rewrite sub_no_match by assumption. exact Htail.
Qed.

End SubKeeps.

(* ================================================================= *)
(** ** Facts about the string built-ins *)

Lemma startswith_spec p s : startswith p s = true <-> exists post, s = p ++ post.
Proof.
  revert s. induction p as [|a p IH]; intros s; simpl.
  - split; eauto.
  - destruct s as [|b s].
    + split; [discriminate | intros [post H]; discriminate].
    + rewrite andb_true_iff, Z.eqb_eq, IH. split.
      * intros [-> [post ->]]. eauto.
      * intros [post [= -> ->]]. eauto.
Qed.

(** [m in t] holds exactly when [t] has [m] as a contiguous part. *)
Lemma contains_spec m t :
  contains m t = true <-> exists pre post, t = pre ++ m ++ post.
Proof.
  induction t as [|c t IH]; simpl; rewrite orb_true_iff, startswith_spec.
  - split.
    + intros [[post H]|H]; [|discriminate]. exists [], post. exact H.
    + intros [pre [post H]]. left.
      destruct pre; [eauto | discriminate].
  - rewrite IH. split.
    + intros [[post H]|[pre [post H]]].
      * exists [], post. exact H.
      * exists (c :: pre), post. now rewrite H.
    + intros [pre [post H]]. destruct pre as [|x pre].
      * left. eauto.
      * right. injection H as _ H. eauto.
Qed.

Lemma replace_from_skipn old new k s :
  replace_from old new k s = replace_from old new 0 (skipn k s).
Proof.
  revert s. induction k as [|k IH]; intros s; [reflexivity|].
  destruct s as [|c s]; [reflexivity|]. simpl. apply IH.
Qed.

(** A text without the first character of [old] has no occurrence of it. *)
Lemma replace_absent a old new s :
  ~ In a s -> replace (a :: old) new s = s.
Proof.
  unfold replace. induction s as [|c s IH]; intros Hin; [reflexivity|].
  simpl in Hin. simpl.
  destruct (Z.eqb_spec a c) as [->|_]; [tauto|]. simpl.
  f_equal. apply IH. tauto.
Qed.

Lemma replace_incl old new s c :
  In c (replace old new s) -> In c s \/ In c new.
Proof.
  unfold replace. destruct old as [|a old].
  - intros H. apply in_app_or in H. destruct H as [H|H]; [now right|].
    apply in_flat_map in H. destruct H as [x [Hx [H|H]]]; subst; auto.
  - generalize 0%nat. induction s as [|x s IH]; intros k; [simpl; tauto|].
    destruct k as [|k]; cbn [replace_from].
    + destruct (startswith (a :: old) (x :: s)).
      * intros H. apply in_app_or in H. destruct H as [H|H]; [now right|].
        apply IH in H. simpl. tauto.
      * intros [H|H]; [left; now left | apply IH in H; simpl; tauto].
    + intros H. apply IH in H. simpl. tauto.
Qed.

(** [replace("\r", "\n")] maps each carriage return to a linefeed. *)
Lemma replace_cr s :
  replace [0x0D] [0x0A] s = map (fun c => if c =? 0x0D then 0x0A else c) s.
Proof.
  unfold replace. induction s as [|c s IH]; [reflexivity|].
  simpl. rewrite andb_true_r, (Z.eqb_sym 13 c).
  destruct (c =? 13); simpl; now rewrite IH.
Qed.

Lemma replace_crlf_pair s :
  replace [0x0D; 0x0A] [0x0A] (0x0D :: 0x0A :: s) = 0x0A :: replace [0x0D; 0x0A] [0x0A] s.
Proof. reflexivity. Qed.

Lemma replace_crlf_other c s :
  (c <> 0x0D \/ forall s', s <> 0x0A :: s') ->
  replace [0x0D; 0x0A] [0x0A] (c :: s) = c :: replace [0x0D; 0x0A] [0x0A] s.
Proof.
  intros H. unfold replace. simpl.
  destruct (Z.eqb_spec 13 c) as [<-|_]; [|reflexivity].
  destruct s as [|d s]; [reflexivity|].
  destruct (Z.eqb_spec 10 d) as [<-|_]; [|reflexivity].
  destruct H as [H|H]; [congruence | now specialize (H s)].
Qed.

Lemma replace_cr_cons c s :
  replace [0x0D] [0x0A] (c :: s) = (if c =? 0x0D then 0x0A else c) :: replace [0x0D] [0x0A] s.
Proof. now rewrite !replace_cr. Qed.

(** The two replacements of step 2 together are the one-pass normalisation. *)
Lemma replace_chain_crlf_to_lf s :
  replace [0x0D] [0x0A] (replace [0x0D; 0x0A] [0x0A] s) = crlf_to_lf s.
Proof.
  remember (length s) as n eqn:Hn.
  revert s Hn. induction n as [n IH] using lt_wf_ind. intros s Hn.
  destruct s as [|c s]; [reflexivity|].
  cbn [length] in Hn. cbn [crlf_to_lf].
  destruct (Z.eqb_spec c 13) as [->|Hc].
  - destruct s as [|d s].
    + reflexivity.
    + destruct (Z.eqb_spec d 10) as [->|Hd].
      * rewrite replace_crlf_pair, replace_cr_cons.
        change (10 =? 13) with false. cbv iota. f_equal.
        apply (IH (length s)); [cbn [length] in Hn; lia | reflexivity].
      * rewrite replace_crlf_other by (right; congruence).
        rewrite replace_cr_cons. change (13 =? 13) with true. cbv iota. f_equal.
        apply (IH (length (d :: s))); [lia | reflexivity].
  - rewrite replace_crlf_other by now left.
    rewrite replace_cr_cons.
    destruct (Z.eqb_spec c 13); [contradiction|]. f_equal.
    apply (IH (length s)); [lia | reflexivity].
Qed.

Lemma crlf_to_lf_no_cr s : ~ In 0x0D (crlf_to_lf s).
Proof.
  rewrite <- replace_chain_crlf_to_lf, replace_cr.
  intros H. apply in_map_iff in H. destruct H as [c [Hc _]].
  destruct (Z.eqb_spec c 13); lia.
Qed.

Lemma crlf_to_lf_linefeeds s : length (linefeeds (crlf_to_lf s)) = line_breaks s.
Proof.
  remember (length s) as n eqn:Hn.
  revert s Hn. induction n as [n IH] using lt_wf_ind. intros s Hn.
  destruct s as [|c s]; [reflexivity|].
  cbn [length] in Hn. cbn [crlf_to_lf line_breaks].
  destruct (Z.eqb_spec c 13) as [->|Hc].
  - unfold linefeeds. cbn [filter]. change (10 =? 10) with true. cbv iota.
    cbn [length]. f_equal.
    destruct s as [|d s]; [reflexivity|].
    destruct (d =? 10).
    + apply (IH (length s)); [cbn [length] in Hn; lia | reflexivity].
    + apply (IH (length (d :: s))); [lia | reflexivity].
  - unfold linefeeds. cbn [filter]. rewrite (Z.eqb_sym 10 c).
    destruct (c =? 10); cbn [length]; [f_equal|];
      apply (IH (length s)); try lia; reflexivity.
Qed.

(* ================================================================= *)
(** ** Facts about bytes and the UTF-8 codec *)

Lemma b2z_range b : 0 <= b2z b < 256.
Proof. unfold b2z. pose proof (Byte.to_N_bounded b). lia. Qed.

Lemma b2z_z2b z : 0 <= z < 256 -> b2z (z2b z) = z.
Proof.
  intros Hz. unfold b2z, z2b.
  destruct (Byte.of_N (Z.to_N z)) as [b|] eqn:Hb.
  - apply Byte.to_of_N in Hb. lia.
  - apply Byte.of_N_None_iff in Hb. lia.
Qed.

Lemma z2b_b2z b : z2b (b2z b) = b.
Proof. unfold b2z, z2b. now rewrite N2Z.id, Byte.of_to_N. Qed.

Lemma scalar_intro c :
  0 <= c <= 0x10FFFF -> ~ (0xD800 <= c <= 0xDFFF) -> scalar c.
Proof. intros H1 H2. unfold scalar, is_scalar. simp_cmp; try reflexivity; lia. Qed.

Lemma scalar_elim c :
  scalar c -> 0 <= c <= 0x10FFFF /\ ~ (0xD800 <= c <= 0xDFFF).
Proof.
  unfold scalar, is_scalar.
  rewrite !andb_true_iff, negb_true_iff, andb_false_iff, !Z.leb_le, !Z.leb_gt. lia.
Qed.

(** *** Decoding one well-formed sequence *)

Lemma decode_ascii b s : b2z b < 0x80 -> utf8_decode (b :: s) = b2z b :: utf8_decode s.
Proof. intros H. cbn [utf8_decode]. now simp_cmp. Qed.

Lemma decode_2 b1 b2 s :
  0xC2 <= b2z b1 < 0xE0 -> 0x80 <= b2z b2 <= 0xBF ->
  utf8_decode (b1 :: b2 :: s) =
  (b2z b1 * 64 + b2z b2 - (0xC0 * 64 + 0x80)) :: utf8_decode s.
Proof.
  intros H1 H2. remember (b2 :: s) as s1 eqn:E1.
  cbn [utf8_decode]. simp_cmp. subst s1. unfold is_cont. now simp_cmp.
Qed.

Lemma decode_3 b1 b2 b3 s :
  0xE0 <= b2z b1 < 0xF0 -> 0x80 <= b2z b2 <= 0xBF -> 0x80 <= b2z b3 <= 0xBF ->
  (b2z b1 = 0xE0 -> 0xA0 <= b2z b2) -> (b2z b1 = 0xED -> b2z b2 < 0xA0) ->
  utf8_decode (b1 :: b2 :: b3 :: s) =
  (b2z b1 * 4096 + b2z b2 * 64 + b2z b3 - (0xE0 * 4096 + 0x80 * 64 + 0x80))
  :: utf8_decode s.
Proof.
  intros H1 H2 H3 H4 H5.
  remember (b3 :: s) as s2 eqn:E2. remember (b2 :: s2) as s1 eqn:E1.
  cbn [utf8_decode]. simp_cmp. subst s1. unfold is_cont. simp_cmp.
  destruct (Z.ltb_spec (b2z b2) 0xA0); simp_cmp; subst s2; now simp_cmp.
Qed.

Lemma decode_4 b1 b2 b3 b4 s :
  0xF0 <= b2z b1 < 0xF5 -> 0x80 <= b2z b2 <= 0xBF -> 0x80 <= b2z b3 <= 0xBF ->
  0x80 <= b2z b4 <= 0xBF ->
  (b2z b1 = 0xF0 -> 0x90 <= b2z b2) -> (b2z b1 = 0xF4 -> b2z b2 < 0x90) ->
  utf8_decode (b1 :: b2 :: b3 :: b4 :: s) =
  (b2z b1 * 262144 + b2z b2 * 4096 + b2z b3 * 64 + b2z b4
   - (0xF0 * 262144 + 0x80 * 4096 + 0x80 * 64 + 0x80))
  :: utf8_decode s.
Proof.
  intros H1 H2 H3 H4 H5 H6.
  remember (b4 :: s) as s3 eqn:E3. remember (b3 :: s3) as s2 eqn:E2.
  remember (b2 :: s2) as s1 eqn:E1.
  cbn [utf8_decode]. simp_cmp. subst s1. unfold is_cont. simp_cmp.
  destruct (Z.ltb_spec (b2z b2) 0x90); simp_cmp; subst s2; simp_cmp;
    subst s3; now simp_cmp.
Qed.

(** Decoding undoes encoding, one character at a time. *)
Lemma decode_encode_char c bs :
  scalar c -> utf8_decode (encode_char c ++ bs) = c :: utf8_decode bs.
Proof.
  intros Hc. apply scalar_elim in Hc. unfold encode_char.
  destruct (Z.ltb_spec c 0x80); [|destruct (Z.ltb_spec c 0x800);
    [|destruct (Z.ltb_spec c 0x10000)]]; cbn [app].
  - rewrite decode_ascii; rewrite b2z_z2b by lia; [reflexivity | lia].
  - rewrite decode_2; rewrite ?b2z_z2b by arith; try arith. f_equal. arith.
  - rewrite decode_3; rewrite ?b2z_z2b by arith; try arith. f_equal. arith.
  - rewrite decode_4; rewrite ?b2z_z2b by arith; try arith. f_equal. arith.
Qed.

Lemma utf8_encode_decode t bs : utf8_encode t = Some bs -> utf8_decode bs = t.
Proof.
  revert bs. induction t as [|c t IH]; intros bs; simpl.
  - now intros [= <-].
  - destruct (is_scalar c) eqn:Hc; [|discriminate].
    destruct (utf8_encode t) as [bs'|]; [|discriminate].
    intros [= <-]. rewrite decode_encode_char by exact Hc. f_equal. now apply IH.
Qed.

Lemma utf8_encode_total t : Forall scalar t -> exists bs, utf8_encode t = Some bs.
Proof.
  induction 1 as [|c t Hc _ [bs IH]]; simpl.
  - eauto.
  - rewrite Hc, IH. eauto.
Qed.

Lemma utf8_encode_app t u bt bu :
  utf8_encode t = Some bt -> utf8_encode u = Some bu ->
  utf8_encode (t ++ u) = Some (bt ++ bu).
Proof.
  revert bt. induction t as [|c t IH]; intros bt; simpl.
  - now intros [= <-].
  - destruct (is_scalar c); [|discriminate].
    destruct (utf8_encode t) as [bt'|]; [|discriminate].
    intros [= <-] Hu. rewrite (IH bt' eq_refl Hu). now rewrite app_assoc.
Qed.

(** A byte of an encoding is the ASCII character itself or has the high bit
    set. *)
Lemma encode_char_bytes c b :
  scalar c -> In b (encode_char c) -> (c < 0x80 /\ b2z b = c) \/ 0x80 <= b2z b.
Proof.
  intros Hc. apply scalar_elim in Hc. unfold encode_char.
  destruct (Z.ltb_spec c 0x80); [|destruct (Z.ltb_spec c 0x800);
    [|destruct (Z.ltb_spec c 0x10000)]]; cbn [In];
  intros Hin; repeat (destruct Hin as [<-|Hin]); try contradiction;
  rewrite b2z_z2b by arith; first [left; split; [assumption | reflexivity] | right; arith].
Qed.

Lemma utf8_encode_bytes t bs b :
  utf8_encode t = Some bs -> In b bs ->
  (exists c, In c t /\ c < 0x80 /\ b2z b = c) \/ 0x80 <= b2z b.
Proof.
  revert bs. induction t as [|c t IH]; intros bs; simpl.
  - intros [= <-] [].
  - destruct (is_scalar c) eqn:Hc; [|discriminate].
    destruct (utf8_encode t) as [bs'|]; [|discriminate].
    intros [= <-] Hin. apply in_app_or in Hin. destruct Hin as [Hin|Hin].
    + destruct (encode_char_bytes c b Hc Hin) as [[H1 H2]|H]; [left|now right].
      exists c. auto.
    + destruct (IH bs' eq_refl Hin) as [[c' [H1 H2]]|H]; [left|now right].
      exists c'. auto.
Qed.

(** Lossy decoding only produces code points that can be encoded again. *)
Lemma utf8_decode_scalar s : Forall scalar (utf8_decode s).
Proof.
  remember (length s) as n eqn:Hn.
  revert s Hn. induction n as [n IH] using lt_wf_ind. intros s Hn.
  destruct s as [|b1 s1]; [constructor|].
  pose proof (b2z_range b1).
  cbn [utf8_decode]. unfold is_cont. split_cmp;
  repeat match goal with
         | b : byte |- _ =>
             lazymatch goal with
             | _ : 0 <= b2z b < 256 |- _ => fail
             | _ => pose proof (b2z_range b)
             end
         end;
  (constructor;
   [ apply scalar_intro; unfold REPLACEMENT; lia
   | first [ constructor
           | eapply IH; [|reflexivity]; subst n; cbn [length]; lia ] ]).
Qed.

(** ASCII bytes decode to themselves. *)
Lemma utf8_decode_ascii s :
  Forall (fun b => b2z b < 0x80) s -> utf8_decode s = map b2z s.
Proof.
  induction 1 as [|b s Hb _ IH]; [reflexivity|].
  rewrite decode_ascii by exact Hb. simpl. now rewrite IH.
Qed.

(* ================================================================= *)
(** ** Facts about the sanitizer *)

(** The pipeline of [_sanitize]; the early return on empty input agrees
    with it. *)
Lemma sanitize_pipeline data :
  sanitize data =
  filter keep (sub ARTIFACT_RE (crlf_to_lf (utf8_decode (sub ANSI_RE data)))).
Proof.
  destruct data as [|b data]; [reflexivity|].
  unfold sanitize. now rewrite replace_chain_crlf_to_lf.
Qed.

Lemma keep_spec ch : keep ch = true <-> 0x20 <= ch \/ ch = 0x0A \/ ch = 0x09.
Proof.
  unfold keep. cbn [str list_ascii_of_string map contains startswith].
  change (Z.of_N (N_of_ascii "010")) with 10.
  change (Z.of_N (N_of_ascii "009")) with 9.
  rewrite !orb_true_iff, !andb_true_iff, Z.leb_le, !Z.eqb_eq.
  intuition (try discriminate; try lia).
Qed.

Lemma sanitize_keep data ch : In ch (sanitize data) -> keep ch = true.
Proof. rewrite sanitize_pipeline. intros H. apply filter_In in H. tauto. Qed.

Lemma crlf_to_lf_incl s c : In c (crlf_to_lf s) -> In c s \/ c = 0x0A.
Proof.
  rewrite <- replace_chain_crlf_to_lf. intros H.
  apply replace_incl in H. destruct H as [H|[H|[]]]; [|now right].
  apply replace_incl in H. destruct H as [H|[H|[]]]; auto.
Qed.

Lemma sanitize_scalar data : Forall scalar (sanitize data).
Proof.
  rewrite sanitize_pipeline. apply Forall_forall. intros c Hc.
  apply filter_In in Hc. destruct Hc as [Hc _].
  apply sub_incl in Hc. apply crlf_to_lf_incl in Hc.
  destruct Hc as [Hc| ->]; [|reflexivity].
  pose proof (utf8_decode_scalar (sub ANSI_RE data)) as H.
  rewrite Forall_forall in H. auto.
Qed.

Lemma ANSI_RE_needs_esc : needs (byte_is 0x1B) ANSI_RE.
Proof. left. intros c Hc. exact Hc. Qed.

Lemma ARTIFACT_RE_needs_bel : needs (Z.eqb 0x07) ARTIFACT_RE.
Proof. right. right. right. right. intros c Hc. exact Hc. Qed.

Lemma ARTIFACT_RE_spares_linefeed :
  classes_within (fun c => (0x0A =? c) = false) ARTIFACT_RE.
Proof.
  cbn. repeat split; intros c Hc; apply Z.eqb_neq;
    rewrite ?andb_true_iff, ?negb_true_iff, ?Z.eqb_eq, ?Z.leb_le, ?Z.eqb_neq in Hc; lia.
Qed.

Lemma filter_all {A : Type} (p : A -> bool) (l : list A) :
  Forall (fun x => p x = true) l -> filter p l = l.
Proof.
  induction 1 as [|x l Hx _ IH]; simpl; [reflexivity|]. now rewrite Hx, IH.
Qed.

Lemma filter_filter_weaker {A : Type} (q k : A -> bool) (l : list A) :
  (forall x, q x = true -> k x = true) -> filter q (filter k l) = filter q l.
Proof.
  intros Hqk. induction l as [|x l IH]; [reflexivity|]. simpl.
  destruct (k x) eqn:Hk; simpl.
  - now rewrite IH.
  - destruct (q x) eqn:Hq; [|exact IH].
    rewrite (Hqk x Hq) in Hk. discriminate.
Qed.

(** Text that went through the sanitizer is left alone by each of its
    steps. *)
Lemma sanitize_fixed_text t bs :
  Forall (fun ch => keep ch = true) t -> utf8_encode t = Some bs ->
  sanitize bs = t.
Proof.
  intros Hkeep Henc.
  assert (Hk : forall ch, In ch t -> 0x20 <= ch \/ ch = 0x0A \/ ch = 0x09).
  { intros ch Hin. apply keep_spec. rewrite Forall_forall in Hkeep. auto. }
  rewrite sanitize_pipeline.
  rewrite (sub_needs_id (byte_is 0x1B) ANSI_RE bs ANSI_RE_needs_esc).
  - rewrite (utf8_encode_decode t bs Henc).
    rewrite <- replace_chain_crlf_to_lf.
    rewrite (replace_absent 0x0D [0x0A] [0x0A] t)
      by (intros Hin; apply Hk in Hin; lia).
    rewrite (replace_absent 0x0D [] [0x0A] t)
      by (intros Hin; apply Hk in Hin; lia).
    rewrite (sub_needs_id (Z.eqb 0x07) ARTIFACT_RE t ARTIFACT_RE_needs_bel).
    + now apply filter_all.
    + apply Forall_forall. intros ch Hin. apply Hk in Hin. apply Z.eqb_neq. lia.
  - apply Forall_forall. intros b Hin. unfold byte_is. apply Z.eqb_neq.
    destruct (utf8_encode_bytes t bs b Henc Hin) as [[c [Hc [_ Hb]]]|Hb]; [|lia].
    apply Hk in Hc. lia.
Qed.

Lemma rmatch_esc_bracket s : rmatch ANSI_RE (x1b :: x5d :: s) = Some s.
Proof. reflexivity. Qed.

(** [ESC ]] is taken by the first alternative of [ANSI_RE]: the two bytes go
    and the scan resumes behind them. *)
Lemma sub_esc_bracket s : sub ANSI_RE (x1b :: x5d :: s) = sub ANSI_RE s.
Proof.
  apply (sub_match ANSI_RE _ [x1b; x5d] s (rmatch_esc_bracket s)); [reflexivity | discriminate].
Qed.

Lemma utf8_encode_ascii s :
  Forall (fun b => b2z b < 0x80) s -> utf8_encode (map b2z s) = Some s.
Proof.
  induction 1 as [|b s Hb _ IH]; [reflexivity|]. simpl.
  pose proof (b2z_range b) as Hr.
  replace (is_scalar (b2z b)) with true by (symmetry; apply scalar_intro; lia).
  rewrite IH. unfold encode_char.
  rewrite (proj2 (Z.ltb_lt _ _) Hb). now rewrite z2b_b2z.
Qed.

(** Printable ASCII passes through unchanged. *)
Lemma sanitize_printable s :
  Forall (fun b => 0x20 <= b2z b <= 0x7E) s -> sanitize s = map b2z s.
Proof.
  intros Hs. apply sanitize_fixed_text.
  - rewrite Forall_forall in *. intros ch Hin. apply in_map_iff in Hin.
    destruct Hin as [b [<- Hb]]. apply keep_spec. specialize (Hs b Hb). lia.
  - apply utf8_encode_ascii. eapply Forall_impl; [|exact Hs].
    intros b Hb. simpl in Hb. lia.
Qed.

(* ================================================================= *)
(** ** The sanitizer: properties *)

(** C1, as the code has it.  An OSC sequence that never receives its BEL or
    ESC-backslash terminator is not closed by the end of the input: after
    [ESC ]] a payload of printable bytes stays in the output as it is, and
    no escape character is left.  [sanitize] is a total function, so the
    scan is bounded by the input. *)
Theorem sanitize_unterminated_osc_payload_stays (payload : list byte) :
  Forall (fun b => 0x20 <= b2z b <= 0x7E) payload ->
  suffix_of (map b2z payload) (sanitize (x1b :: x5d :: payload)) /\
  ~ In ESC (sanitize (x1b :: x5d :: payload)).
Proof.
  intros Hp. split.
  - exists []. rewrite sanitize_pipeline, sub_esc_bracket, <- sanitize_pipeline.
    now rewrite sanitize_printable.
  - intros Hin. apply sanitize_keep, keep_spec in Hin. unfold ESC in Hin. lia.
Qed.

Lemma sanitize_unterminated_osc_payload_stays_witness :
  Forall (fun b => 0x20 <= b2z b <= 0x7E) [x30; x3b; x74; x69; x74; x6c; x65] /\
  suffix_of (str "0;title")
    (sanitize [x1b; x5d; x30; x3b; x74; x69; x74; x6c; x65]) /\
  ~ In ESC (sanitize [x1b; x5d; x30; x3b; x74; x69; x74; x6c; x65]).
Proof.
  assert (H : Forall (fun b => 0x20 <= b2z b <= 0x7E)
                [x30; x3b; x74; x69; x74; x6c; x65]).
  { repeat constructor; vm_compute; discriminate. }
  split; [exact H|].
  exact (sanitize_unterminated_osc_payload_stays _ H).
Defined.

(** C1, the claim as stated fails: the unterminated sequence
    [ESC ] 0 ; t i t l e] is the whole input, and its payload comes out. *)
Lemma sanitize_unterminated_osc_not_removed :
  sanitize [x1b; x5d; x30; x3b; x74; x69; x74; x6c; x65] = str "0;title" /\
  sanitize [x1b; x5d; x30; x3b; x74; x69; x74; x6c; x65] <> [].
Proof. split; [vm_compute; reflexivity | vm_compute; discriminate]. Qed.

(** The same input closed by BEL: [ESC ]] is consumed by the class
    [[@-Z\\-_]] before the OSC alternative is tried, so the payload stays
    here too. *)
Example sanitize_terminated_osc :
  sanitize [x1b; x5d; x30; x3b; x74; x69; x74; x6c; x65; x07] = str "0;title".
Proof. vm_compute. reflexivity. Qed.

(** C5, the claim as stated fails: DEL is a control character and passes. *)
Lemma sanitize_keeps_del :
  exists ch, In ch (sanitize [x7f]) /\
             is_control ch = true /\ ch <> 0x0A /\ ch <> 0x09.
Proof. exists 0x7F. vm_compute. intuition discriminate. Qed.

(** C5, as the code has it.  The output has no ESC and no character below
    U+0020 other than linefeed and horizontal tab. *)
Theorem sanitize_no_esc_no_c0 (data : list byte) :
  Forall (fun ch => ch <> ESC /\ (0x20 <= ch \/ ch = 0x0A \/ ch = 0x09))
         (sanitize data).
Proof.
  apply Forall_forall. intros ch Hin.
  apply sanitize_keep, keep_spec in Hin. unfold ESC. lia.
Qed.

(** C6.  The output of [sanitize] can always be encoded, and sanitizing the
    encoding gives the same text back. *)
Theorem sanitize_idempotent (x : list byte) :
  exists bs, utf8_encode (sanitize x) = Some bs /\ sanitize bs = sanitize x.
Proof.
  destruct (utf8_encode_total (sanitize x) (sanitize_scalar x)) as [bs Hbs].
  exists bs. split; [exact Hbs|].
  apply sanitize_fixed_text; [|exact Hbs].
  apply Forall_forall. intros ch. apply sanitize_keep.
Qed.

(** C8.  With [text] the decoded text, the two replacements of step 2 are
    the one-pass normalisation; the later steps neither add nor drop a
    linefeed, so the output has exactly one linefeed for each CR LF pair,
    each bare carriage return and each bare linefeed of [text], and no
    carriage return. *)
Theorem sanitize_line_endings (data : list byte) :
  let text := utf8_decode (sub ANSI_RE data) in
  replace [0x0D] [0x0A] (replace [0x0D; 0x0A] [0x0A] text) = crlf_to_lf text /\
  sanitize data = filter keep (sub ARTIFACT_RE (crlf_to_lf text)) /\
  length (linefeeds (sanitize data)) = line_breaks text /\
  ~ In 0x0D (sanitize data).
Proof.
  intros text. split; [apply replace_chain_crlf_to_lf|].
  split; [apply sanitize_pipeline|]. split.
  - rewrite sanitize_pipeline. fold text. unfold linefeeds.
    rewrite filter_filter_weaker.
    + rewrite (sub_filter_kept (Z.eqb 0x0A) ARTIFACT_RE ARTIFACT_RE_spares_linefeed).
      apply crlf_to_lf_linefeeds.
    + intros ch Hch. apply Z.eqb_eq in Hch. subst ch. reflexivity.
  - intros Hin. apply sanitize_keep, keep_spec in Hin. lia.
Qed.

Example sanitize_crlf_example :
  sanitize [x61; x0d; x0a; x62; x0d; x63; x0d; x0d; x0a] =
  [0x61; 0x0A; 0x62; 0x0A; 0x63; 0x0A; 0x0A].
Proof. vm_compute. reflexivity. Qed.

(* ================================================================= *)
(** ** The ready-wait engine: properties *)

(** The scan returns the first marker, in list order, that the text
    contains. *)
Lemma scan_markers_first ms text m :
  scan_markers ms text = Some m <->
  exists before after,
    ms = before ++ m :: after /\
    Forall (fun m' => contains m' text = false) before /\
    contains m text = true.
Proof.
  induction ms as [|m0 ms IH]; simpl.
  - split; [discriminate|]. intros [[|? ?] [after [H _]]]; discriminate.
  - destruct (contains m0 text) eqn:H0.
    + split.
      * intros [= <-]. exists [], ms. repeat split; auto.
      * intros [[|x before] [after [Hms [Hbefore Hm]]]].
        -- injection Hms as -> _. reflexivity.
        -- injection Hms as -> _. inversion Hbefore; congruence.
    + rewrite IH. split.
      * intros [before [after [-> [Hbefore Hm]]]].
        exists (m0 :: before), after. repeat split; auto.
      * intros [[|x before] [after [Hms [Hbefore Hm]]]].
        -- injection Hms as -> _. congruence.
        -- injection Hms as -> ->. inversion Hbefore; subst. eauto.
Qed.

Lemma scan_markers_finds ms text m :
  In m ms -> contains m text = true -> exists m0, scan_markers ms text = Some m0.
Proof.
  induction ms as [|x ms IH]; simpl; [tauto|].
  intros [->|Hin] Hm.
  - rewrite Hm. eauto.
  - destruct (contains x text); eauto.
Qed.

Lemma slice_from_suffix {A : Type} (start : Z) (l : list A) :
  suffix_of (slice_from start l) l.
Proof.
  unfold slice_from. eexists. symmetry. apply firstn_skipn.
Qed.

(** [l[-n:]] for a positive [n] is the last [n] elements, or all of [l]. *)
Lemma slice_from_last_length {A : Type} (n : Z) (l : list A) :
  0 < n -> length (slice_from (- n) l) = Nat.min (Z.to_nat n) (length l).
Proof.
  intros Hn. unfold slice_from.
  rewrite (proj2 (Z.ltb_lt (- n) 0)) by lia.
  rewrite length_skipn. lia.
Qed.

Section ReadyWaitFacts.
Variable repr : list Z -> list Z.

(** C2.  When the sanitized buffer contains a configured marker at the time
    of the call, the call returns that text in its first turn, before any
    wait (whatever the clock and the other threads would do), the marker
    that triggers the return is the first one in list order that occurs in
    the text, and the buffer is emptied. *)
Theorem read_until_ready_marker_present
    (timeout_ms : Z) (t0 : Q) (clock : nat -> Q) (env : list (list event))
    (st : session) :
  (exists m, In m (markers st) /\ contains m (sanitize (buffer st)) = true) ->
  exists m before after,
    markers st = before ++ m :: after /\
    Forall (fun m' => contains m' (sanitize (buffer st)) = false) before /\
    (exists pre post, sanitize (buffer st) = pre ++ m ++ post) /\
    read_until_ready repr timeout_ms t0 clock env st =
      (Returned (sanitize (buffer st)), set_buffer [] st, 0%nat) /\
    buffer (set_buffer [] st) = [].
Proof.
  intros [m [Hin Hm]].
  destruct (scan_markers_finds _ _ _ Hin Hm) as [m0 Hscan].
  pose proof (proj1 (scan_markers_first _ _ _) Hscan) as [before [after [Hms [Hb Hm0]]]].
  exists m0, before, after. repeat split; try assumption.
  - apply contains_spec. exact Hm0.
  - unfold read_until_ready. destruct env; simpl; rewrite Hscan; reflexivity.
Qed.

(** C3.  At a turn of the loop where no marker occurs in the sanitized
    buffer and the remaining time is not positive, the call raises
    [PtyTimeoutError]; its message carries [repr] of the last 150 characters
    of the sanitized buffer (all of it when shorter), and the session,
    buffer included, is as it was. *)
Theorem read_until_ready_timeout
    (deadline : Q) (clock : nat -> Q) (env : list (list event)) (i : nat)
    (st : session) :
  scan_markers (markers st) (sanitize (buffer st)) = None ->
  (deadline - clock i <= 0)%Q ->
  let text := sanitize (buffer st) in
  let tail := slice_from (-150) text in
  ready_loop repr deadline clock env i st =
    (Raised (PtyTimeoutError (str "Timeout | Buffer: " ++ repr tail)), st, i) /\
  suffix_of tail text /\
  length tail = Nat.min 150 (length text).
Proof.
  intros Hscan Hrem text tail. split; [|split].
  - apply Qle_bool_iff in Hrem.
    destruct env; simpl; rewrite Hscan, Hrem; reflexivity.
  - apply slice_from_suffix.
  - apply (slice_from_last_length 150 text). lia.
Qed.

(** A turn that finds no marker, time left and a live session waits. *)
Lemma ready_loop_wait deadline clock evs env i st :
  scan_markers (markers st) (sanitize (buffer st)) = None ->
  (0 < deadline - clock i)%Q ->
  truthy (is_alive st) = true ->
  ready_loop repr deadline clock (evs :: env) i st =
  ready_loop repr deadline clock env (S i) (apply_events evs st).
Proof.
  intros Hscan Hrem Halive. simpl. rewrite Hscan, Halive.
  destruct (Qle_bool (deadline - clock i) 0) eqn:Hle; [|reflexivity].
  apply Qle_bool_iff in Hle. lra.
Qed.

(** However a call ends, it has left the session as the other threads made
    it, except for emptying the buffer on a match; a timeout reports the
    buffer as it stands. *)
Lemma ready_loop_final deadline clock env i st o st' j :
  ready_loop repr deadline clock env i st = (o, st', j) ->
  exists evs,
    (i <= j)%nat /\
    match o with
    | Returned text =>
        st' = set_buffer [] (apply_events evs st) /\
        text = sanitize (buffer (apply_events evs st))
    | Raised (PtyTimeoutError msg) =>
        st' = apply_events evs st /\
        msg = str "Timeout | Buffer: "
              ++ repr (slice_from (-150) (sanitize (buffer st')))
    | _ => st' = apply_events evs st
    end.
Proof.
  revert i st. induction env as [|evs env IH]; intros i st; simpl.
  - destruct (scan_markers _ _);
      [|destruct (Qle_bool _ _); [|destruct (negb _)]];
      intros [= <- <- <-]; exists []; repeat split; reflexivity || lia.
  - destruct (scan_markers _ _);
      [|destruct (Qle_bool _ _); [|destruct (negb _)]];
      try (intros [= <- <- <-]; exists []; repeat split; reflexivity || lia).
    intros H. apply IH in H. destruct H as [evs' [Hij H]].
    exists (evs ++ evs'). unfold apply_events in *. rewrite fold_left_app.
    split; [lia | exact H].
Qed.

End ReadyWaitFacts.

(* ================================================================= *)
(** ** Lifecycle: properties *)

Lemma scan_markers_none ms text :
  Forall (fun m => contains m text = false) ms -> scan_markers ms text = None.
Proof.
  induction 1 as [|m ms Hm _ IH]; simpl; [reflexivity|]. now rewrite Hm.
Qed.

Lemma reader_append_running chunk st : _running (reader_append chunk st) = _running st.
Proof. unfold reader_append. simpl. now destruct (_ >? _). Qed.

Lemma close_running reaped st : _running (close reaped st) = false.
Proof.
  unfold close.
  destruct (proc (set_running false st)) as [p|]; [destruct reaped as [rc|];
    [destruct (returncode p)|]|]; simpl;
  match goal with |- context [fd_open ?x] => destruct (fd_open x) end; reflexivity.
Qed.

(** Nothing the other threads do turns [_running] on again. *)
Lemma apply_event_stopped st e : _running st = false -> _running (apply_event st e) = false.
Proof.
  intros Hst. destruct e as [chunk| |rc|reaped]; simpl.
  - now rewrite reader_append_running.
  - reflexivity.
  - destruct (proc st) as [p|]; [destruct (returncode p)|]; exact Hst.
  - apply close_running.
Qed.

Lemma apply_events_stopped evs st : _running st = false -> _running (apply_events evs st) = false.
Proof.
  revert st. induction evs as [|e evs IH]; intros st Hst; [exact Hst|].
  simpl. apply IH. now apply apply_event_stopped.
Qed.

Lemma is_alive_stopped st : _running st = false -> is_alive st = PyBool false.
Proof. intros H. unfold is_alive. now rewrite H. Qed.

Lemma is_alive_after_close reaped st later :
  is_alive (apply_events later (close reaped st)) = PyBool false.
Proof. apply is_alive_stopped, apply_events_stopped, close_running. Qed.

Section AfterClose.
Variable repr : list Z -> list Z.

(** After [close] (and whatever the reader thread or the child still do
    afterwards), [is_alive] returns [False]; a [read_until_ready] whose
    buffer holds no marker and whose timeout has not run out by its first
    check raises [PtyError("Subprocess died")] in its first turn, without
    waiting. *)
Theorem read_until_ready_after_close
    (reaped : option Z) (st0 : session) (later : list event)
    (timeout_ms : Z) (t0 : Q) (clock : nat -> Q) (env : list (list event)) :
  let st := apply_events later (close reaped st0) in
  Forall (fun m => contains m (sanitize (buffer st)) = false) (markers st) ->
  (clock 0%nat - t0 < inject_Z timeout_ms / 1000)%Q ->
  is_alive st = PyBool false /\
  read_until_ready repr timeout_ms t0 clock env st =
    (Raised (PtyError (str "Subprocess died")), st, 0%nat).
Proof.
  intros st Hm Ht.
  assert (Halive : is_alive st = PyBool false) by apply is_alive_after_close.
  split; [exact Halive|].
  unfold read_until_ready.
  destruct (Qle_bool (t0 + inject_Z timeout_ms / 1000 - clock 0%nat) 0) eqn:Hle.
  - apply Qle_bool_iff in Hle. lra.
  - destruct env; simpl; rewrite (scan_markers_none _ _ Hm), Hle, Halive; reflexivity.
Qed.

(** Whatever the clock says, such a call ends in its first turn with an
    exception: it never waits. *)
Lemma read_until_ready_after_close_no_wait
    (reaped : option Z) (st0 : session) (later : list event)
    (timeout_ms : Z) (t0 : Q) (clock : nat -> Q) (env : list (list event)) :
  let st := apply_events later (close reaped st0) in
  Forall (fun m => contains m (sanitize (buffer st)) = false) (markers st) ->
  exists e, read_until_ready repr timeout_ms t0 clock env st = (Raised e, st, 0%nat).
Proof.
  intros st Hm.
  assert (Halive : is_alive st = PyBool false) by apply is_alive_after_close.
  unfold read_until_ready.
  destruct env; simpl; rewrite (scan_markers_none _ _ Hm), Halive;
    destruct (Qle_bool _ _); eexists; reflexivity.
Qed.

End AfterClose.

(* ================================================================= *)
(** ** Stream reader: properties *)

(** With a positive cap, one append-and-trim step leaves at most
    [max_history] bytes, the newest ones; nothing is dropped while the cap is
    not exceeded. *)
Lemma reader_append_history chunk st :
  0 < max_history st ->
  Z.of_nat (length (history (reader_append chunk st))) <= max_history st /\
  suffix_of (history (reader_append chunk st)) (history st ++ chunk) /\
  (Z.of_nat (length (history st ++ chunk)) <= max_history st ->
   history (reader_append chunk st) = history st ++ chunk).
Proof.
  intros Hcap. unfold reader_append. cbn [history set_history set_buffer max_history].
  destruct (Z.gtb_spec (Z.of_nat (length (history st ++ chunk))) (max_history st)) as [Hgt|Hle];
    cbn [history set_history set_buffer].
  - split; [|split].
    + unfold slice_from. rewrite (proj2 (Z.ltb_lt (- max_history st) 0)) by lia.
      rewrite length_skipn. lia.
    + apply slice_from_suffix.
    + lia.
  - split; [lia|]. split; [exists []; reflexivity | reflexivity].
Qed.

Lemma reader_append_max_history chunk st :
  max_history (reader_append chunk st) = max_history st.
Proof. unfold reader_append. simpl. now destruct (_ >? _). Qed.

(** With a positive cap the history stays within it along the whole loop. *)
Lemma reader_loop_history_bounded polls st :
  0 < max_history st ->
  Z.of_nat (length (history st)) <= max_history st ->
  Z.of_nat (length (history (_reader_loop polls st))) <= max_history st.
Proof.
  revert st. induction polls as [|p polls IH]; intros st Hcap Hst; simpl.
  - now destruct (negb (_running st)).
  - destruct (negb (_running st)); [exact Hst|].
    destruct p as [|chunk|]; [now apply IH| |exact Hst].
    destruct chunk as [|b chunk]; [exact Hst|].
    rewrite <- (reader_append_max_history (b :: chunk) st).
    apply IH; rewrite reader_append_max_history; [exact Hcap|].
    now apply reader_append_history.
Qed.

Lemma slice_from_zero {A : Type} (l : list A) : slice_from (- 0) l = l.
Proof.
  unfold slice_from. change (- 0 <? 0) with false.
  rewrite Z.min_l by lia. reflexivity.
Qed.

(** With a cap of zero the slice [history[-0:]] is the whole history:
    nothing is ever dropped. *)
Lemma reader_append_cap_zero chunk st :
  max_history st = 0 -> history (reader_append chunk st) = history st ++ chunk.
Proof.
  intros Hcap. unfold reader_append. cbn [history set_history set_buffer max_history].
  rewrite Hcap. destruct (_ >? 0); cbn [history set_history set_buffer];
    [apply slice_from_zero | reflexivity].
Qed.

(** C4, at the cap 0: after one chunk of one byte the history holds that
    byte, one more than the cap. *)
Theorem reader_loop_exceeds_zero_cap :
  let st := {| max_history := 0; markers := init_markers None;
               master_fd := Some 3; proc := Some {| returncode := None |};
               history := []; buffer := []; _running := true;
               pty_input := [] |} in
  history (_reader_loop [Data [x61]] st) = [x61] /\
  Z.of_nat (length (history (_reader_loop [Data [x61]] st))) > max_history st.
Proof. split; reflexivity. Qed.

(* ================================================================= *)
(** ** Writer: properties *)

Lemma drop_while_spec {A : Type} (p : A -> bool) (l : list A) :
  exists taken,
    l = taken ++ drop_while p l /\
    Forall (fun x => p x = true) taken /\
    (forall x rest, drop_while p l = x :: rest -> p x = false).
Proof.
  induction l as [|x l [taken [Hl [Ht Hd]]]]; simpl.
  - exists []. repeat split; [constructor | discriminate].
  - destruct (p x) eqn:Hx.
    + exists (x :: taken). repeat split.
      * simpl. now rewrite <- Hl.
      * now constructor.
      * exact Hd.
    + exists []. repeat split; [constructor|].
      intros y rest [= <- _]. exact Hx.
Qed.

(** [rstrip] cuts a run of whitespace off the end, and all of it. *)
Lemma rstrip_spec text :
  exists ws,
    text = rstrip text ++ ws /\
    Forall (fun c => isspace c = true) ws /\
    (forall t c, rstrip text = t ++ [c] -> isspace c = false).
Proof.
  unfold rstrip.
  destruct (drop_while_spec isspace (rev text)) as [taken [Hl [Ht Hd]]].
  exists (rev taken). repeat split.
  - rewrite <- rev_app_distr, <- Hl. now rewrite rev_involutive.
  - now apply Forall_rev.
  - intros t c Hr. apply (f_equal (@rev Z)) in Hr.
    rewrite rev_involutive, rev_app_distr in Hr. simpl in Hr. eauto.
Qed.

Lemma utf8_encode_app_inv t u bs :
  utf8_encode (t ++ u) = Some bs ->
  exists bt bu, utf8_encode t = Some bt /\ utf8_encode u = Some bu /\ bs = bt ++ bu.
Proof.
  revert bs. induction t as [|c t IH]; intros bs; simpl.
  - intros H. exists [], bs. auto.
  - destruct (is_scalar c); [|discriminate].
    destruct (utf8_encode (t ++ u)) as [bs'|]; [|discriminate].
    intros [= <-]. destruct (IH bs' eq_refl) as [bt [bu [-> [-> ->]]]].
    exists (encode_char c ++ bt), bu. now rewrite app_assoc.
Qed.

Lemma encode_char_last c :
  scalar c ->
  exists bs b, encode_char c = bs ++ [b] /\ ((c < 0x80 /\ b2z b = c) \/ 0x80 <= b2z b).
Proof.
  intros Hc. pose proof Hc as Hr. apply scalar_elim in Hr. unfold encode_char.
  destruct (Z.ltb_spec c 0x80); [|destruct (Z.ltb_spec c 0x800);
    [|destruct (Z.ltb_spec c 0x10000)]].
  - exists [], (z2b c). split; [reflexivity|]. left. rewrite b2z_z2b by lia. auto.
  - exists [z2b (0xC0 + c / 64)], (z2b (0x80 + c mod 64)).
    split; [reflexivity|]. right. rewrite b2z_z2b by arith. arith.
  - exists [z2b (0xE0 + c / 4096); z2b (0x80 + (c / 64) mod 64)], (z2b (0x80 + c mod 64)).
    split; [reflexivity|]. right. rewrite b2z_z2b by arith. arith.
  - exists [z2b (0xF0 + c / 262144); z2b (0x80 + (c / 4096) mod 64);
            z2b (0x80 + (c / 64) mod 64)], (z2b (0x80 + c mod 64)).
    split; [reflexivity|]. right. rewrite b2z_z2b by arith. arith.
Qed.

(** The encoding of a text that does not end in a linefeed does not end in
    the byte 0x0A. *)
Lemma utf8_encode_no_trailing_lf t bs :
  utf8_encode t = Some bs ->
  (forall t' c, t = t' ++ [c] -> c <> 0x0A) ->
  forall bs', bs <> bs' ++ [x0a].
Proof.
  intros Henc Hlast bs' Hbs.
  destruct (exists_last (l := t)) as [t' [c Ht]].
  - intros ->. simpl in Henc. injection Henc as <-. now destruct bs'.
  - subst t. destruct (utf8_encode_app_inv _ _ _ Henc) as [bt [bu [_ [Hu ->]]]].
    simpl in Hu. destruct (is_scalar c) eqn:Hc; [|discriminate].
    injection Hu as <-. rewrite app_nil_r in Hbs.
    destruct (encode_char_last c Hc) as [pre [b [Hpre Hb]]].
    rewrite Hpre, app_assoc in Hbs. apply app_inj_tail in Hbs.
    destruct Hbs as [_ ->]. change (b2z x0a) with 10 in Hb.
    specialize (Hlast t' c eq_refl). lia.
Qed.

(** C9, as the code has it.  On a session whose descriptor is open, for a
    text that can be encoded (no lone surrogate), [write] returns normally
    and what the terminal has received afterwards is what it had received
    before, then the encoding of the text without its trailing whitespace,
    then the single byte 0x0A; the part before that byte does not itself
    end in a linefeed, and no other field of the session changes. *)
Theorem write_sends_stripped_line (text : list Z) (st : session) :
  fd_open (master_fd st) = true ->
  Forall scalar text ->
  exists bs ws,
    text = rstrip text ++ ws /\
    Forall (fun c => isspace c = true) ws /\
    (forall t c, rstrip text = t ++ [c] -> isspace c = false) /\
    utf8_encode (rstrip text) = Some bs /\
    (forall bs', bs <> bs' ++ [x0a]) /\
    fst (write text st) = Ok tt /\
    pty_input (snd (write text st)) = pty_input st ++ bs ++ [x0a] /\
    buffer (snd (write text st)) = buffer st /\
    history (snd (write text st)) = history st /\
    master_fd (snd (write text st)) = master_fd st /\
    _running (snd (write text st)) = _running st.
Proof.
  intros Hfd Htext.
  destruct (rstrip_spec text) as [ws [Hsplit [Hws Hlast]]].
  assert (Hsc : Forall scalar (rstrip text)).
  { rewrite Hsplit in Htext. apply Forall_app in Htext. tauto. }
  destruct (utf8_encode_total _ Hsc) as [bs Hbs].
  assert (Hw : write text st =
               (Ok tt, write_raw (bs ++ [x0a]) st)).
  { unfold write.
    now rewrite (utf8_encode_app (rstrip text) _ bs [x0a] Hbs) by reflexivity. }
  exists bs, ws. rewrite Hw. unfold write_raw. rewrite Hfd. cbn.
  repeat split; try assumption; try reflexivity.
  apply (utf8_encode_no_trailing_lf (rstrip text)); [exact Hbs|].
  intros t' c Ht' ->. apply Hlast in Ht'. discriminate.
Qed.

(** C9, the claim as stated fails: the text ["a\ud800"] cannot be encoded;
    [write] raises [UnicodeEncodeError] and the terminal receives nothing. *)
Lemma write_lone_surrogate_sends_nothing :
  fd_open (master_fd sample_session) = true /\
  write [0x61; 0xD800] sample_session = (Raise UnicodeEncodeError, sample_session) /\
  pty_input (snd (write [0x61; 0xD800] sample_session)) = pty_input sample_session.
Proof. repeat split. Qed.

(** [write] on a session without an open descriptor sends nothing. *)
Lemma write_closed_session text st :
  fd_open (master_fd st) = false -> snd (write text st) = st.
Proof.
  intros Hfd. unfold write, write_raw.
  destruct (utf8_encode _); simpl; [now rewrite Hfd | reflexivity].
Qed.

Section SendControlFacts.
Variable upper : list Z -> list Z.

(** When the upper-cased argument is one character, a letter [A]..[Z] sends
    the control byte of its position in the alphabet and anything else
    sends nothing. *)
Lemma send_control_single c u st :
  upper [c] = [u] ->
  send_control upper [c] st =
  if (0x41 <=? u) && (u <=? 0x5A)
  then (Ok tt, write_raw [z2b (u - 0x41 + 1)] st)
  else (Ok tt, st).
Proof.
  intros Hu. unfold send_control. rewrite Hu.
  change (str "A") with [0x41]. change (str "Z") with [0x5A].
  cbn [str_le ord]. rewrite !andb_true_r.
  replace ((0x41 <? u) || (0x41 =? u)) with (0x41 <=? u)
    by (destruct (Z.ltb_spec 0x41 u), (Z.eqb_spec 0x41 u), (Z.leb_spec 0x41 u);
        try reflexivity; lia).
  replace ((u <? 0x5A) || (u =? 0x5A)) with (u <=? 0x5A)
    by (destruct (Z.ltb_spec u 0x5A), (Z.eqb_spec u 0x5A), (Z.leb_spec u 0x5A);
        try reflexivity; lia).
  destruct (Z.leb_spec 0x41 u); [|reflexivity].
  destruct (Z.leb_spec u 0x5A); [|reflexivity].
  cbn [andb]. now simp_cmp.
Qed.

(** C10, at the letter sharp s (U+00DF), whose upper case is the two
    characters [SS]: the string comparison ["A" <= "SS" <= "Z"] holds, and
    [ord] raises [TypeError]; nothing is written. *)
Theorem send_control_sharp_s_raises st :
  upper [0xDF] = [0x53; 0x53] ->
  send_control upper [0xDF] st = (Raise TypeError, st).
Proof. intros Hu. unfold send_control. rewrite Hu. reflexivity. Qed.

End SendControlFacts.

(* ================================================================= *)
(** ** The statements at sample values *)

Lemma read_until_ready_marker_present_witness :
  (exists m, In m (markers sample_session) /\
             contains m (sanitize (buffer sample_session)) = true) /\
  exists m before after,
    markers sample_session = before ++ m :: after /\
    Forall (fun m' => contains m' (sanitize (buffer sample_session)) = false) before /\
    (exists pre post, sanitize (buffer sample_session) = pre ++ m ++ post) /\
    read_until_ready repr_plain 10000 0 (fun _ => 0%Q) [] sample_session =
      (Returned (sanitize (buffer sample_session)), set_buffer [] sample_session, 0%nat) /\
    buffer (set_buffer [] sample_session) = [].
Proof.
  assert (H : exists m, In m (markers sample_session) /\
                        contains m (sanitize (buffer sample_session)) = true).
  { exists (str "$ "). split; [left; reflexivity | vm_compute; reflexivity]. }
  split; [exact H|].
  exact (read_until_ready_marker_present repr_plain 10000 0 (fun _ => 0%Q) []
           sample_session H).
Defined.

Lemma read_until_ready_timeout_witness :
  scan_markers (markers busy_session) (sanitize (buffer busy_session)) = None /\
  (1 - 2 <= 0)%Q /\
  ready_loop repr_plain 1 (fun _ => 2%Q) [] 0 busy_session =
    (Raised (PtyTimeoutError
       (str "Timeout | Buffer: "
        ++ repr_plain (slice_from (-150) (sanitize (buffer busy_session))))),
     busy_session, 0%nat) /\
  suffix_of (slice_from (-150) (sanitize (buffer busy_session)))
            (sanitize (buffer busy_session)) /\
  length (slice_from (-150) (sanitize (buffer busy_session))) =
    Nat.min 150 (length (sanitize (buffer busy_session))).
Proof.
  assert (H1 : scan_markers (markers busy_session) (sanitize (buffer busy_session)) = None)
    by (vm_compute; reflexivity).
  assert (H2 : (1 - 2 <= 0)%Q) by (vm_compute; discriminate).
  split; [exact H1|]. split; [exact H2|].
  exact (read_until_ready_timeout repr_plain 1 (fun _ => 2%Q) [] 0 busy_session H1 H2).
Defined.

Lemma read_until_ready_after_close_witness :
  Forall (fun m => contains m (sanitize (buffer (close (Some (-9)) busy_session))) = false)
         (markers (close (Some (-9)) busy_session)) /\
  (0 - 0 < inject_Z 10000 / 1000)%Q /\
  is_alive (close (Some (-9)) busy_session) = PyBool false /\
  read_until_ready repr_plain 10000 0 (fun _ => 0%Q) [] (close (Some (-9)) busy_session) =
    (Raised (PtyError (str "Subprocess died")), close (Some (-9)) busy_session, 0%nat).
Proof.
  assert (H1 : Forall (fun m => contains m (sanitize (buffer (close (Some (-9)) busy_session))) = false)
                 (markers (close (Some (-9)) busy_session)))
    by (repeat constructor).
  assert (H2 : (0 - 0 < inject_Z 10000 / 1000)%Q) by reflexivity.
  split; [exact H1|]. split; [exact H2|].
  exact (read_until_ready_after_close repr_plain (Some (-9)) busy_session []
           10000 0 (fun _ => 0%Q) [] H1 H2).
Defined.

Lemma write_sends_stripped_line_witness :
  fd_open (master_fd sample_session) = true /\
  Forall scalar (str "ls  ") /\
  exists bs ws,
    str "ls  " = rstrip (str "ls  ") ++ ws /\
    Forall (fun c => isspace c = true) ws /\
    (forall t c, rstrip (str "ls  ") = t ++ [c] -> isspace c = false) /\
    utf8_encode (rstrip (str "ls  ")) = Some bs /\
    (forall bs', bs <> bs' ++ [x0a]) /\
    fst (write (str "ls  ") sample_session) = Ok tt /\
    pty_input (snd (write (str "ls  ") sample_session)) =
      pty_input sample_session ++ bs ++ [x0a] /\
    buffer (snd (write (str "ls  ") sample_session)) = buffer sample_session /\
    history (snd (write (str "ls  ") sample_session)) = history sample_session /\
    master_fd (snd (write (str "ls  ") sample_session)) = master_fd sample_session /\
    _running (snd (write (str "ls  ") sample_session)) = _running sample_session.
Proof.
  assert (H1 : fd_open (master_fd sample_session) = true) by reflexivity.
  assert (H2 : Forall scalar (str "ls  ")) by (repeat constructor).
  split; [exact H1|]. split; [exact H2|].
  exact (write_sends_stripped_line (str "ls  ") sample_session H1 H2).
Defined.

Example write_example :
  write (str "ls  ") sample_session =
  (Ok tt, set_pty_input [x6c; x73; x0a] sample_session).
Proof. vm_compute. reflexivity. Qed.

Lemma send_control_sharp_s_raises_witness :
  upper_latin1 [0xDF] = [0x53; 0x53] /\
  send_control upper_latin1 [0xDF] sample_session = (Raise TypeError, sample_session).
Proof.
  assert (H : upper_latin1 [0xDF] = [0x53; 0x53]) by reflexivity.
  split; [exact H|].
  exact (send_control_sharp_s_raises upper_latin1 sample_session H).
Defined.

(** [Ctrl-C], from either case of the letter. *)
Example send_control_c :
  send_control upper_latin1 (str "c") sample_session =
    (Ok tt, set_pty_input [x03] sample_session) /\
  send_control upper_latin1 (str "C") sample_session =
    (Ok tt, set_pty_input [x03] sample_session) /\
  send_control upper_latin1 (str "1") sample_session = (Ok tt, sample_session).
Proof. repeat split; vm_compute; reflexivity. Qed.

(* ================================================================= *)
(** ** More on the matcher: runs, and where a substitution starts *)

Section RunFacts.
Context {A : Type}.
Implicit Types (r : regex A) (s rest : list A).

Lemma matches_chr_cons (p : A -> bool) c s :
  matches (Chr p) (c :: s) = if p c then [s] else [].
Proof. reflexivity. Qed.

Lemma matches_seq r1 r2 s :
  matches (Seq r1 r2) s = flat_map (matches r2) (matches r1 s).
Proof. reflexivity. Qed.

(** A greedy repetition first tries to pass the whole run. *)
Lemma star_greedy_run (p : A -> bool) run s :
  Forall (fun c => p c = true) run ->
  exists later, star_greedy p (run ++ s) = star_greedy p s ++ later.
Proof.
  induction 1 as [|c run Hc _ [later IH]]; simpl.
  - exists []. now rewrite app_nil_r.
  - rewrite Hc, IH. eexists. now rewrite <- app_assoc.
Qed.

Lemma star_greedy_stops (p : A -> bool) run s :
  Forall (fun c => p c = true) run ->
  match s with [] => True | c :: _ => p c = false end ->
  exists later, star_greedy p (run ++ s) = s :: later.
Proof.
  intros Hrun Hs. destruct (star_greedy_run p run s Hrun) as [later ->].
  destruct s as [|c s]; simpl; [eauto|]. rewrite Hs. simpl. eauto.
Qed.

(** A lazy repetition followed by a character stops at the first place
    where that character stands. *)
Lemma star_lazy_until (p q : A -> bool) run b rest :
  Forall (fun c => p c = true /\ q c = false) run -> q b = true ->
  exists later,
    flat_map (matches (Chr q)) (star_lazy p (run ++ b :: rest)) = rest :: later.
Proof.
  intros Hrun Hb. induction Hrun as [|c run [Hp Hq] _ [later IH]].
  - simpl. rewrite Hb. simpl. eauto.
  - cbn [app star_lazy flat_map]. rewrite matches_chr_cons, Hq, Hp. simpl. eauto.
Qed.

(** Greedy repetition over a run that reaches the end of the text, tried
    against a continuation that fails on every rest of the run. *)
Lemma star_greedy_all_fail (p : A -> bool) (k : list A -> list (list A)) run :
  Forall (fun c => p c = true) run ->
  (forall t, (exists pre, run = pre ++ t) -> k t = []) ->
  flat_map k (star_greedy p run) = [].
Proof.
  intros Hrun. induction Hrun as [|c run Hc _ IH]; intros Hk.
  - simpl. rewrite Hk; [reflexivity | exists []; reflexivity].
  - cbn [star_greedy]. rewrite Hc, flat_map_app. rewrite IH.
    + simpl. rewrite Hk; [reflexivity | exists []; reflexivity].
    + intros t [pre ->]. apply Hk. exists (c :: pre). reflexivity.
Qed.

(** Before the character a pattern starts with, the text is passed on. *)
Lemma sub_skip_prefix (p : A -> bool) r pre s :
  Forall (fun c => p c = false) pre ->
  sub (Seq (Chr p) r) (pre ++ s) = pre ++ sub (Seq (Chr p) r) s.
Proof.
  induction 1 as [|c pre Hc _ IH]; [reflexivity|].
  cbn [app]. rewrite sub_no_match.
  - now rewrite IH.
  - unfold rmatch. rewrite matches_seq, matches_chr_cons, Hc. reflexivity.
Qed.

Lemma sub_from_length r k s : (length (sub_from r k s) <= length s)%nat.
Proof.
  revert k. induction s as [|c s IH]; intros k; [simpl; lia|].
  destruct k as [|k].
  - change (sub_from r 0 (c :: s)) with (sub r (c :: s)). rewrite sub_cons.
    destruct (rmatch r (c :: s)) as [rest|].
    + destruct (length (c :: s) - length rest)%nat as [|k].
      * cbn [length]. specialize (IH 0%nat). unfold sub. lia.
      * cbn [length]. specialize (IH k). lia.
    + cbn [length]. specialize (IH 0%nat). unfold sub. lia.
  - change (sub_from r (S k) (c :: s)) with (sub_from r k s).
    cbn [length]. specialize (IH k). lia.
Qed.

Lemma sub_length r s : (length (sub r s) <= length s)%nat.
Proof. apply sub_from_length. Qed.

End RunFacts.

(* ================================================================= *)
(** ** The sanitizer: what is removed and what is kept *)


Lemma matches_alt {A : Type} (r1 r2 : regex A) s :
  matches (Alt r1 r2) s = matches r1 s ++ matches r2 s.
Proof. reflexivity. Qed.

Lemma byte_in_true lo hi b : lo <= b2z b <= hi -> byte_in lo hi b = true.
Proof. intros H. unfold byte_in. now simp_cmp. Qed.

Lemma byte_in_false lo hi b : b2z b < lo \/ hi < b2z b -> byte_in lo hi b = false.
Proof.
  intros H. unfold byte_in.
  destruct (Z.leb_spec lo (b2z b)); destruct (Z.leb_spec (b2z b) hi);
    try reflexivity; lia.
Qed.

Lemma rmatch_escape_letter c s :
  escape_letter c -> rmatch ANSI_RE (x1b :: c :: s) = Some s.
Proof.
  intros Hc. unfold rmatch, ANSI_RE.
  rewrite matches_seq, matches_chr_cons. change (byte_is 27 x1b) with true.
  cbn [flat_map]. rewrite matches_alt, matches_chr_cons.
  replace (byte_in 64 90 c || byte_in 92 95 c) with true; [reflexivity|].
  symmetry. apply orb_true_iff.
  destruct Hc as [Hc|Hc]; [left | right]; now apply byte_in_true.
Qed.

(** The CSI alternative on what follows [ESC []. *)
Lemma rmatch_csi params inters final rest :
  Forall csi_param params -> Forall csi_intermediate inters -> csi_final final ->
  rmatch ANSI_RE (x1b :: x5b :: params ++ inters ++ final :: rest) = Some rest.
Proof.
  intros Hp Hi Hf. unfold rmatch, ANSI_RE.
  rewrite matches_seq, matches_chr_cons. change (byte_is 27 x1b) with true.
  cbn [flat_map]. rewrite matches_alt, matches_chr_cons.
  change (byte_in 64 90 x5b || byte_in 92 95 x5b) with false. cbn [app].
  rewrite matches_alt, matches_seq, matches_chr_cons.
  change (byte_is 91 x5b) with true. cbn [flat_map].
  rewrite matches_seq. cbn [matches].
  destruct (star_greedy_stops (byte_in 48 63) params (inters ++ final :: rest))
    as [later1 ->].
  { eapply Forall_impl; [|exact Hp]. intros b Hb. now apply byte_in_true. }
  { destruct inters as [|i inters]; cbn [app]; apply byte_in_false.
    - unfold csi_final in Hf. lia.
    - inversion Hi as [|? ? Hi0 _]; subst. unfold csi_intermediate in Hi0. lia. }
  cbn [flat_map].
  destruct (star_greedy_stops (byte_in 32 47) inters (final :: rest))
    as [later2 ->].
  { eapply Forall_impl; [|exact Hi]. intros b Hb. now apply byte_in_true. }
  { apply byte_in_false. unfold csi_final in Hf. lia. }
  cbn [flat_map]. rewrite (byte_in_true 64 126 final Hf). reflexivity.
Qed.

(** [ESC [] followed by parameter bytes up to the end of the data: no
    alternative matches. *)
Lemma rmatch_csi_cut params :
  Forall csi_param params -> rmatch ANSI_RE (x1b :: x5b :: params) = None.
Proof.
  intros Hp. unfold rmatch, ANSI_RE.
  rewrite matches_seq, matches_chr_cons. change (byte_is 27 x1b) with true.
  cbn [flat_map]. rewrite matches_alt, matches_chr_cons.
  change (byte_in 64 90 x5b || byte_in 92 95 x5b) with false. cbn [app].
  rewrite matches_alt, matches_seq, matches_chr_cons.
  change (byte_is 91 x5b) with true. cbn [flat_map].
  rewrite (matches_seq (Chr (byte_is 93))), matches_chr_cons.
  change (byte_is 93 x5b) with false. cbn [flat_map]. rewrite !app_nil_r.
  rewrite matches_seq. cbn [matches].
  rewrite star_greedy_all_fail; [reflexivity| |].
  - eapply Forall_impl; [|exact Hp]. intros b Hb. now apply byte_in_true.
  - intros t [pre Ht]. subst params. apply Forall_app in Hp. destruct Hp as [_ Ht].
    destruct t as [|b t]; [reflexivity|].
    inversion Ht as [|? ? Hb _]; subst. unfold csi_param in Hb.
    cbn [star_greedy]. rewrite (byte_in_false 32 47 b) by lia.
    cbn [flat_map]. rewrite (byte_in_false 64 126 b) by lia. reflexivity.
Qed.

Lemma sub_ansi_skip pre s :
  Forall (fun b => b2z b <> 0x1B) pre ->
  sub ANSI_RE (pre ++ s) = pre ++ sub ANSI_RE s.
Proof.
  intros Hpre. apply sub_skip_prefix.
  eapply Forall_impl; [|exact Hpre]. intros b Hb. now apply Z.eqb_neq.
Qed.

(** X1.  A complete CSI sequence ([ESC [], parameter bytes, intermediate
    bytes, a final byte) is removed as a whole wherever it stands behind
    bytes that hold no ESC: the result is that of the input without it. *)
Theorem sanitize_removes_csi (pre params inters : list byte) (final : byte)
    (rest : list byte) :
  Forall (fun b => b2z b <> 0x1B) pre ->
  Forall csi_param params -> Forall csi_intermediate inters -> csi_final final ->
  sanitize (pre ++ x1b :: x5b :: params ++ inters ++ final :: rest) =
  sanitize (pre ++ rest).
Proof.
  intros Hpre Hp Hi Hf. rewrite !sanitize_pipeline, !sub_ansi_skip by assumption.
  rewrite (sub_match ANSI_RE _ (x1b :: x5b :: params ++ inters ++ [final]) rest
             (rmatch_csi params inters final rest Hp Hi Hf)).
  - reflexivity.
  - cbn [app]. now rewrite <- !app_assoc.
  - discriminate.
Qed.

(** X2.  A two-byte escape, ESC and one byte of [[@-Z\\-_]], is removed
    wherever it stands behind bytes that hold no ESC. *)
Theorem sanitize_removes_two_byte_escape (pre : list byte) (c : byte)
    (rest : list byte) :
  Forall (fun b => b2z b <> 0x1B) pre ->
  escape_letter c ->
  sanitize (pre ++ x1b :: c :: rest) = sanitize (pre ++ rest).
Proof.
  intros Hpre Hc. rewrite !sanitize_pipeline, !sub_ansi_skip by assumption.
  now rewrite (sub_match ANSI_RE _ [x1b; c] rest (rmatch_escape_letter c rest Hc)).
Qed.

Lemma utf8_decode_ascii_app pre s :
  Forall (fun b => b2z b < 0x80) pre ->
  utf8_decode (pre ++ s) = map b2z pre ++ utf8_decode s.
Proof.
  induction 1 as [|b pre Hb _ IH]; [reflexivity|].
  cbn [app map]. rewrite decode_ascii by exact Hb. now rewrite IH.
Qed.

Lemma crlf_to_lf_skip t s :
  ~ In 0x0D t -> crlf_to_lf (t ++ s) = t ++ crlf_to_lf s.
Proof.
  induction t as [|c t IH]; intros Hin; [reflexivity|].
  cbn [app crlf_to_lf]. simpl in Hin.
  destruct (Z.eqb_spec c 13) as [->|_]; [tauto|].
  rewrite IH by tauto. reflexivity.
Qed.

Lemma crlf_to_lf_none t : ~ In 0x0D t -> crlf_to_lf t = t.
Proof.
  intros H. rewrite <- (app_nil_r t) at 1. rewrite crlf_to_lf_skip by exact H.
  simpl. apply app_nil_r.
Qed.

(** The artifact pattern at the head of a text: [133;], a capital letter,
    [;], then anything but a linefeed up to the first BEL. *)
Lemma rmatch_artifact letter payload rest :
  0x41 <= letter <= 0x5A ->
  Forall (fun c => c <> 0x0A /\ c <> 0x07) payload ->
  rmatch ARTIFACT_RE
    (0x31 :: 0x33 :: 0x33 :: 0x3B :: letter :: 0x3B :: payload ++ 0x07 :: rest)
  = Some rest.
Proof.
  intros Hl Hp. unfold rmatch, ARTIFACT_RE.
  change (word Z.eqb (str "133;"))
    with (Seq (Chr (Z.eqb 0x31)) (Seq (Chr (Z.eqb 0x33))
            (Seq (Chr (Z.eqb 0x33)) (Chr (Z.eqb 0x3B))))).
  repeat (rewrite ?matches_seq, ?matches_chr_cons, ?Z.eqb_refl; cbn [flat_map app]).
  replace ((65 <=? letter) && (letter <=? 90)) with true by (symmetry; simp_cmp; reflexivity).
  repeat (rewrite ?matches_seq, ?matches_chr_cons, ?Z.eqb_refl; cbn [flat_map app]).
  change (matches (Star false (fun c => negb (c =? 10))))
    with (star_lazy (fun c => negb (c =? 10))).
  destruct (star_lazy_until (fun c => negb (c =? 10)) (Z.eqb 7) payload 7 rest)
    as [later Hlater].
  - eapply Forall_impl; [|exact Hp]. intros c [H1 H2]. split.
    + apply negb_true_iff, Z.eqb_neq. exact H1.
    + apply Z.eqb_neq. congruence.
  - reflexivity.
  - rewrite Hlater. reflexivity.
Qed.

(** The later steps on bytes that are ASCII without ESC. *)
Lemma sanitize_ascii s :
  Forall (fun b => b2z b < 0x80 /\ b2z b <> 0x1B) s ->
  sanitize s = filter keep (sub ARTIFACT_RE (crlf_to_lf (map b2z s))).
Proof.
  intros Hs. rewrite sanitize_pipeline.
  rewrite (sub_needs_id (byte_is 0x1B) ANSI_RE s ANSI_RE_needs_esc).
  - rewrite utf8_decode_ascii; [reflexivity|].
    eapply Forall_impl; [|exact Hs]. intros b [Hb _]. exact Hb.
  - eapply Forall_impl; [|exact Hs]. intros b [_ Hb]. now apply Z.eqb_neq.
Qed.

Lemma sanitize_artifact_head (letter : byte) (payload rest : list byte) :
  0x41 <= b2z letter <= 0x5A ->
  Forall printable payload ->
  sanitize (x31 :: x33 :: x33 :: x3b :: letter :: x3b :: payload ++ x07 :: rest) =
  sanitize rest.
Proof.
  intros Hl Hp. rewrite !sanitize_pipeline.
  change (x31 :: x33 :: x33 :: x3b :: letter :: x3b :: payload ++ x07 :: rest)
    with ([x31; x33; x33; x3b; letter; x3b] ++ payload ++ x07 :: rest).
  assert (Hb2z : forall b, In b ([x31; x33; x33; x3b; letter; x3b] ++ payload ++ [x07]) ->
                           b2z b < 0x80 /\ b2z b <> 0x1B /\ b2z b <> 0x0D).
  { intros b Hin. apply in_app_or in Hin. destruct Hin as [Hin|Hin].
    - simpl in Hin. repeat (destruct Hin as [<-|Hin]); try contradiction;
        try (vm_compute; repeat split; congruence). lia.
    - apply in_app_or in Hin. destruct Hin as [Hin|[<-|[]]].
      + rewrite Forall_forall in Hp. specialize (Hp b Hin). unfold printable in Hp. lia.
      + vm_compute. repeat split; congruence. }
  replace ([x31; x33; x33; x3b; letter; x3b] ++ payload ++ x07 :: rest)
    with (([x31; x33; x33; x3b; letter; x3b] ++ payload ++ [x07]) ++ rest)
    by (now rewrite <- !app_assoc).
  rewrite sub_ansi_skip
    by (apply Forall_forall; intros b Hin; apply Hb2z in Hin; tauto).
  rewrite utf8_decode_ascii_app
    by (apply Forall_forall; intros b Hin; apply Hb2z in Hin; tauto).
  rewrite crlf_to_lf_skip.
  2:{ intros Hin. apply in_map_iff in Hin. destruct Hin as [b [Hb Hin]].
      apply Hb2z in Hin. lia. }
  f_equal.
  apply (sub_match ARTIFACT_RE _
           (map b2z ([x31; x33; x33; x3b; letter; x3b] ++ payload ++ [x07]))).
  - rewrite !map_app. cbn [map app]. rewrite <- !app_assoc. cbn [app].
    apply rmatch_artifact; [exact Hl|].
    apply Forall_forall. intros c Hin. apply in_map_iff in Hin.
    destruct Hin as [b [<- Hin]]. rewrite Forall_forall in Hp.
    specialize (Hp b Hin). unfold printable in Hp. lia.
  - reflexivity.
  - discriminate.
Qed.

(** X3.  A shell-integration fragment that arrives without its escape
    wrapper at the head of the data ([133;], a capital letter, [;], printable
    bytes, BEL) is removed as a whole. *)
Theorem sanitize_removes_leaked_artifact (letter : byte) (payload rest : list byte) :
  0x41 <= b2z letter <= 0x5A ->
  Forall printable payload ->
  sanitize (x31 :: x33 :: x33 :: x3b :: letter :: x3b :: payload ++ x07 :: rest) =
  sanitize rest.
Proof. apply sanitize_artifact_head. Qed.

(** X4.  An OSC 133 sequence at the head of the data, with its introducer
    [ESC ]] and its BEL, is removed as a whole: the escape pattern takes the
    introducer and the artifact pattern takes the rest. *)
Theorem sanitize_removes_osc_133 (letter : byte) (payload rest : list byte) :
  0x41 <= b2z letter <= 0x5A ->
  Forall printable payload ->
  sanitize (x1b :: x5d :: x31 :: x33 :: x33 :: x3b :: letter :: x3b
            :: payload ++ x07 :: rest) =
  sanitize rest.
Proof.
  intros Hl Hp.
  rewrite <- (sanitize_artifact_head letter payload rest Hl Hp).
  rewrite !sanitize_pipeline. now rewrite sub_esc_bracket.
Qed.

(** X5.  Text without characters below space other than linefeed and tab,
    and without surrogates, comes back unchanged from its encoding. *)
Theorem sanitize_encode_clean_text (t : list Z) :
  Forall clean t -> Forall scalar t ->
  exists bs, utf8_encode t = Some bs /\ sanitize bs = t.
Proof.
  intros Hclean Hsc. destruct (utf8_encode_total t Hsc) as [bs Hbs].
  exists bs. split; [exact Hbs|].
  apply sanitize_fixed_text; [|exact Hbs].
  eapply Forall_impl; [|exact Hclean]. intros ch Hch. now apply keep_spec.
Qed.

Lemma utf8_decode_length s : (length (utf8_decode s) <= length s)%nat.
Proof.
  remember (length s) as n eqn:Hn.
  revert s Hn. induction n as [n IH] using lt_wf_ind. intros s Hn.
  destruct s as [|b1 s1]; [simpl; lia|].
  cbn [utf8_decode]. unfold is_cont. split_cmp;
    cbn [andb orb negb]; cbv match; subst n; cbn [length] in *;
    try lia;
    match goal with
    | |- (S (length (utf8_decode ?t)) <= _)%nat =>
        assert (length (utf8_decode t) <= length t)%nat
          by (eapply IH; [|reflexivity]; cbn [length]; lia);
        cbn [length] in *; lia
    end.
Qed.

Lemma crlf_to_lf_length s : (length (crlf_to_lf s) <= length s)%nat.
Proof.
  assert (H : forall n s, (length s <= n)%nat ->
                          (length (crlf_to_lf s) <= length s)%nat).
  { clear s. induction n as [|n IH]; intros s Hn.
    - destruct s; [simpl; lia | simpl in Hn; lia].
    - destruct s as [|c s]; [simpl; lia|].
      cbn [length] in Hn. cbn [crlf_to_lf]. destruct (c =? 13).
      + destruct s as [|d s]; [simpl; lia|].
        cbn [length] in Hn.
        destruct (d =? 10); cbn [length].
        * specialize (IH s). lia.
        * specialize (IH (d :: s)). cbn [length] in IH. lia.
      + cbn [length]. specialize (IH s). lia. }
  apply (H (length s)). lia.
Qed.

Lemma filter_length {A : Type} (p : A -> bool) (l : list A) :
  (length (filter p l) <= length l)%nat.
Proof.
  induction l as [|x l IH]; simpl; [lia|]. destruct (p x); simpl; lia.
Qed.

(** X6.  The text is never longer, in characters, than the data in bytes. *)
Theorem sanitize_length (data : list byte) :
  (length (sanitize data) <= length data)%nat.
Proof.
  rewrite sanitize_pipeline.
  pose proof (filter_length keep
    (sub ARTIFACT_RE (crlf_to_lf (utf8_decode (sub ANSI_RE data))))).
  pose proof (sub_length ARTIFACT_RE (crlf_to_lf (utf8_decode (sub ANSI_RE data)))).
  pose proof (crlf_to_lf_length (utf8_decode (sub ANSI_RE data))).
  pose proof (utf8_decode_length (sub ANSI_RE data)).
  pose proof (sub_length ANSI_RE data). lia.
Qed.

(** X7.  A CSI sequence cut off by the end of the data (its final byte has
    not arrived) is not recognised: only the ESC goes, the bracket and the
    parameter bytes stay in the text. *)
Theorem sanitize_cut_csi (pre params : list byte) :
  Forall printable pre -> Forall csi_param params ->
  sanitize (pre ++ x1b :: x5b :: params) = map b2z (pre ++ x5b :: params).
Proof.
  intros Hpre Hp.
  assert (Hpr : Forall printable (pre ++ x5b :: params)).
  { apply Forall_app. split; [exact Hpre|]. constructor.
    - unfold printable. vm_compute. split; discriminate.
    - eapply Forall_impl; [|exact Hp]. unfold csi_param, printable. intros b Hb. lia. }
  rewrite <- (sanitize_printable _ Hpr).
  rewrite !sanitize_pipeline.
  rewrite !sub_ansi_skip
    by (eapply Forall_impl; [|exact Hpre]; unfold printable; intros b Hb; lia).
  rewrite (sub_no_match ANSI_RE x1b (x5b :: params) (rmatch_csi_cut params Hp)).
  assert (Htail : sub ANSI_RE (x5b :: params) = x5b :: params).
  { apply (sub_needs_id (byte_is 0x1B) ANSI_RE _ ANSI_RE_needs_esc).
    constructor; [reflexivity|].
    eapply Forall_impl; [|exact Hp]. unfold csi_param. intros b Hb.
    apply Z.eqb_neq. lia. }
  rewrite Htail.
  assert (Hascii : Forall (fun b => b2z b < 0x80) pre)
    by (eapply Forall_impl; [|exact Hpre]; unfold printable; intros b Hb; lia).
  rewrite !utf8_decode_ascii_app by exact Hascii.
  assert (Hcr : ~ In 0x0D (map b2z pre)).
  { intros Hin. apply in_map_iff in Hin. destruct Hin as [b [Hb Hin]].
    rewrite Forall_forall in Hpre. specialize (Hpre b Hin). unfold printable in Hpre. lia. }
  rewrite !crlf_to_lf_skip by exact Hcr.
  rewrite decode_ascii by (vm_compute; reflexivity).
  change (b2z x1b) with 27. cbn [crlf_to_lf]. change (27 =? 13) with false. cbv iota.
  assert (Hnobel : forall u, Forall (fun c => (7 =? c) = false) u ->
            sub ARTIFACT_RE u = u)
    by (intros u Hu; apply (sub_needs_id (Z.eqb 7) ARTIFACT_RE u ARTIFACT_RE_needs_bel Hu)).
  assert (Hrest : Forall (fun c => (7 =? c) = false)
            (crlf_to_lf (utf8_decode (x5b :: params)))).
  { apply Forall_forall. intros c Hin. apply crlf_to_lf_incl in Hin.
    apply Z.eqb_neq. destruct Hin as [Hin| ->]; [|lia].
    rewrite utf8_decode_ascii in Hin.
    - apply in_map_iff in Hin. destruct Hin as [b [<- [<-|Hin]]].
      + vm_compute. discriminate.
      + rewrite Forall_forall in Hp. specialize (Hp b Hin). unfold csi_param in Hp. lia.
    - constructor; [vm_compute; reflexivity|].
      eapply Forall_impl; [|exact Hp]. unfold csi_param. intros b Hb. lia. }
  assert (Hpre7 : Forall (fun c => (7 =? c) = false) (map b2z pre)).
  { apply Forall_forall. intros c Hin. apply in_map_iff in Hin.
    destruct Hin as [b [<- Hin]]. rewrite Forall_forall in Hpre.
    specialize (Hpre b Hin). unfold printable in Hpre. apply Z.eqb_neq. lia. }
  rewrite !Hnobel.
  - rewrite !filter_app. f_equal.
  - apply Forall_app. split; assumption.
  - apply Forall_app. split; [assumption|].
    constructor; [reflexivity | assumption].
Qed.

(* ================================================================= *)
(** ** The stream reader: what the accumulators hold *)

Lemma slice_from_neg_skipn {A : Type} (cap : Z) (l : list A) :
  0 < cap -> slice_from (- cap) l = skipn (length l - Z.to_nat cap) l.
Proof.
  intros Hcap. unfold slice_from.
  rewrite (proj2 (Z.ltb_lt (- cap) 0)) by lia. f_equal. lia.
Qed.

(** Keeping the newest [cap] elements after each append is keeping the
    newest [cap] of everything. *)
Lemma slice_from_neg_app {A : Type} (cap : Z) (h c : list A) :
  0 < cap ->
  slice_from (- cap) (slice_from (- cap) h ++ c) = slice_from (- cap) (h ++ c).
Proof.
  intros Hcap. rewrite !slice_from_neg_skipn by exact Hcap.
  set (k := Z.to_nat cap).
  destruct (Nat.le_gt_cases (length h) k) as [Hle|Hgt].
  - replace (length h - k)%nat with 0%nat by lia. reflexivity.
  - pose (a := firstn (length h - k) h). pose (b := skipn (length h - k) h).
    assert (Hh : a ++ b = h) by apply firstn_skipn.
    assert (Ha : length a = (length h - k)%nat)
      by (unfold a; rewrite length_firstn; lia).
    assert (Hb : length b = k) by (unfold b; rewrite length_skipn; lia).
    change (skipn (length h - k) h) with b.
    replace (h ++ c) with (a ++ (b ++ c)) by (now rewrite app_assoc, Hh).
    rewrite !length_app.
    rewrite (skipn_app (length a + (length b + length c) - k)).
    rewrite (skipn_all2 a) by lia. cbn [app]. f_equal. lia.
Qed.

Lemma reader_append_buffer chunk st :
  buffer (reader_append chunk st) = buffer st ++ chunk.
Proof. unfold reader_append. simpl. now destruct (_ >? _). Qed.

Lemma reader_append_newest chunk st :
  0 < max_history st ->
  history (reader_append chunk st) =
  slice_from (- max_history st) (history st ++ chunk).
Proof.
  intros Hcap. unfold reader_append.
  cbn [history set_history set_buffer max_history].
  destruct (Z.gtb_spec (Z.of_nat (length (history st ++ chunk))) (max_history st));
    cbn [history set_history set_buffer]; [reflexivity|].
  rewrite slice_from_neg_skipn by exact Hcap.
  replace (length (history st ++ chunk) - Z.to_nat (max_history st))%nat
    with 0%nat by lia.
  reflexivity.
Qed.

Lemma set_running_buffer r st : buffer (set_running r st) = buffer st.
Proof. reflexivity. Qed.

(** X8.  A running reader loop only ever appends to the consumable buffer:
    after any run it holds what it held, followed by exactly the bytes read
    up to the first end of stream or error. *)
Theorem reader_loop_buffer (polls : list poll) (st : session) :
  _running st = true ->
  buffer (_reader_loop polls st) = buffer st ++ received polls.
Proof.
  revert st. induction polls as [|p polls IH]; intros st Hrun; simpl.
  - rewrite Hrun. simpl. now rewrite app_nil_r.
  - rewrite Hrun. simpl.
    destruct p as [|chunk|].
    + now apply IH.
    + destruct chunk as [|b chunk]; [simpl; now rewrite app_nil_r|].
      rewrite IH by (now rewrite reader_append_running).
      rewrite reader_append_buffer. now rewrite <- app_assoc.
    + simpl. now rewrite app_nil_r.
Qed.

(** X9.  With a positive cap that the history respects at the start, after
    any run of the loop the history is the newest [max_history] bytes of
    what it held followed by the bytes read, and is within the cap. *)
Theorem reader_loop_history_newest (polls : list poll) (st : session) :
  _running st = true ->
  0 < max_history st ->
  Z.of_nat (length (history st)) <= max_history st ->
  history (_reader_loop polls st) =
    slice_from (- max_history st) (history st ++ received polls) /\
  Z.of_nat (length (history (_reader_loop polls st))) <= max_history st.
Proof.
  intros Hrun Hcap Hlen. split; [|now apply reader_loop_history_bounded].
  assert (Hwhole : forall h : list byte,
            Z.of_nat (length h) <= max_history st ->
            slice_from (- max_history st) h = h).
  { intros h Hh. rewrite slice_from_neg_skipn by exact Hcap.
    replace (length h - Z.to_nat (max_history st))%nat with 0%nat by lia.
    reflexivity. }
  revert st Hrun Hcap Hlen Hwhole.
  induction polls as [|p polls IH]; intros st Hrun Hcap Hlen Hwhole; simpl.
  - rewrite Hrun. simpl. rewrite app_nil_r. symmetry. now apply Hwhole.
  - rewrite Hrun. simpl.
    destruct p as [|chunk|].
    + now apply IH.
    + destruct chunk as [|b chunk];
        [simpl; rewrite app_nil_r; symmetry; now apply Hwhole|].
      pose proof (reader_append_history (b :: chunk) st Hcap) as [Hbound _].
      rewrite IH; rewrite ?reader_append_max_history, ?reader_append_running;
        try assumption.
      rewrite reader_append_newest by exact Hcap.
      rewrite slice_from_neg_app by exact Hcap. now rewrite <- app_assoc.
    + simpl. rewrite app_nil_r. symmetry. now apply Hwhole.
Qed.


(* ================================================================= *)
(** ** The ready-wait engine along a whole call *)

Lemma reader_append_markers chunk st : markers (reader_append chunk st) = markers st.
Proof. unfold reader_append. simpl. now destruct (_ >? _). Qed.

Lemma close_markers reaped st : markers (close reaped st) = markers st.
Proof.
  unfold close.
  destruct (proc (set_running false st)) as [p|]; [destruct reaped as [rc|];
    [destruct (returncode p)|]|]; simpl;
  match goal with |- context [fd_open ?x] => destruct (fd_open x) end; reflexivity.
Qed.

Lemma apply_event_markers st e : markers (apply_event st e) = markers st.
Proof.
  destruct e as [chunk| |rc|reaped]; simpl.
  - apply reader_append_markers.
  - reflexivity.
  - destruct (proc st) as [p|]; [destruct (returncode p)|]; reflexivity.
  - apply close_markers.
Qed.

Lemma apply_events_markers evs st : markers (apply_events evs st) = markers st.
Proof.
  revert st. induction evs as [|e evs IH]; intros st; [reflexivity|].
  simpl. now rewrite IH, apply_event_markers.
Qed.

Lemma reader_append_proc chunk st : proc (reader_append chunk st) = proc st.
Proof. unfold reader_append. simpl. now destruct (_ >? _). Qed.

(** A session that is not alive stays so whatever the other threads do. *)
Lemma apply_event_dead st e :
  truthy (is_alive st) = false -> truthy (is_alive (apply_event st e)) = false.
Proof.
  intros Hdead. destruct e as [chunk| |rc|reaped]; cbn [apply_event].
  - unfold is_alive in *. now rewrite reader_append_running, reader_append_proc.
  - reflexivity.
  - destruct (proc st) as [p|] eqn:Hp; [destruct (returncode p) eqn:Hrc|];
      try exact Hdead.
    unfold is_alive. cbn. now destruct (_running st).
  - now rewrite is_alive_stopped by apply close_running.
Qed.

Lemma apply_events_dead evs st :
  truthy (is_alive st) = false -> truthy (is_alive (apply_events evs st)) = false.
Proof.
  revert st. induction evs as [|e evs IH]; intros st Hst; [exact Hst|].
  simpl. apply IH. now apply apply_event_dead.
Qed.

(** The events that end a session: the reader leaving its loop, the child
    exiting, a [close] from another thread. *)
Lemma apply_events_stop evs st e :
  In e evs ->
  (e = ReaderExit \/ (exists rc, e = ProcExit rc) \/ exists reaped, e = Closed reaped) ->
  truthy (is_alive (apply_events evs st)) = false.
Proof.
  intros Hin He. revert st. induction evs as [|x evs IH]; intros st; [contradiction|].
  simpl. destruct Hin as [->|Hin]; [|now apply IH].
  apply apply_events_dead.
  destruct He as [->|[[rc ->]|[reaped ->]]]; cbn [apply_event].
  - reflexivity.
  - unfold is_alive.
    destruct (proc st) as [p|] eqn:Hp; [destruct (returncode p) eqn:Hrc|]; cbn;
      rewrite ?Hp, ?Hrc; now destruct (_running st).
  - now rewrite is_alive_stopped by apply close_running.
Qed.

Section ReadyWaitCalls.
Variable repr : list Z -> list Z.

Lemma ready_loop_match deadline clock env i st m :
  scan_markers (markers st) (sanitize (buffer st)) = Some m ->
  ready_loop repr deadline clock env i st =
  (Returned (sanitize (buffer st)), set_buffer [] st, i).
Proof. intros H. destruct env; simpl; now rewrite H. Qed.

Lemma ready_loop_expired deadline clock env i st :
  scan_markers (markers st) (sanitize (buffer st)) = None ->
  (deadline - clock i <= 0)%Q ->
  ready_loop repr deadline clock env i st =
  (Raised (PtyTimeoutError_init repr (str "Timeout") (sanitize (buffer st))), st, i).
Proof.
  intros H Hle. apply Qle_bool_iff in Hle. destruct env; simpl; now rewrite H, Hle.
Qed.

Lemma ready_loop_dead deadline clock env i st :
  scan_markers (markers st) (sanitize (buffer st)) = None ->
  (0 < deadline - clock i)%Q ->
  truthy (is_alive st) = false ->
  ready_loop repr deadline clock env i st =
  (Raised (PtyError (str "Subprocess died")), st, i).
Proof.
  intros H Hlt Hdead.
  assert (Hle : Qle_bool (deadline - clock i) 0 = false).
  { destruct (Qle_bool (deadline - clock i) 0) eqn:E; [|reflexivity].
    apply Qle_bool_iff in E. lra. }
  destruct env; simpl; now rewrite H, Hle, Hdead.
Qed.

(** X11.  Whatever the clock and the other threads do, a text that
    [read_until_ready] returns contains one of the configured markers and is
    the sanitized form of the whole buffer as it stood at that moment; the
    buffer is empty afterwards, and the history is not touched. *)
Theorem read_until_ready_returned
    (timeout_ms : Z) (t0 : Q) (clock : nat -> Q) (env : list (list event))
    (st st' : session) (text : list Z) (waits : nat) :
  read_until_ready repr timeout_ms t0 clock env st = (Returned text, st', waits) ->
  exists m evs,
    In m (markers st) /\
    (exists pre post, text = pre ++ m ++ post) /\
    text = sanitize (buffer (apply_events evs st)) /\
    buffer st' = [] /\
    history st' = history (apply_events evs st).
Proof.
  unfold read_until_ready. generalize (t0 + inject_Z timeout_ms / 1000)%Q as deadline.
  intros deadline. generalize 0%nat as i.
  revert st. induction env as [|evs env IH]; intros st i; simpl.
  - destruct (scan_markers _ _) as [m|] eqn:Hscan;
      [|destruct (Qle_bool _ _); [|destruct (negb _)]]; intros [= <- <- <-].
    apply scan_markers_first in Hscan.
    destruct Hscan as [before [after [Hms [_ Hm]]]].
    exists m, []. repeat split.
    + rewrite Hms. apply in_elt.
    + now apply contains_spec.
  - destruct (scan_markers _ _) as [m|] eqn:Hscan;
      [|destruct (Qle_bool _ _); [|destruct (negb _)]]; try (intros [= <- <- <-]).
    + apply scan_markers_first in Hscan.
      destruct Hscan as [before [after [Hms [_ Hm]]]].
      exists m, []. repeat split.
      * rewrite Hms. apply in_elt.
      * now apply contains_spec.
    + intros H. apply IH in H.
      destruct H as [m [evs' [Hin [Hsub [Htext [Hbuf Hhist]]]]]].
      exists m, (evs ++ evs'). unfold apply_events in *.
      rewrite fold_left_app.
      fold (apply_events evs st) in *. rewrite apply_events_markers in Hin.
      repeat split; assumption.
Qed.

(** X12.  A call that raises has consumed nothing: the session it leaves
    is exactly what the other threads made of it, and the exception is the
    timeout, with the tail of the sanitized buffer as it stands, or the
    death of the process. *)
Theorem read_until_ready_raised
    (timeout_ms : Z) (t0 : Q) (clock : nat -> Q) (env : list (list event))
    (st st' : session) (e : exn) (waits : nat) :
  read_until_ready repr timeout_ms t0 clock env st = (Raised e, st', waits) ->
  (exists evs, st' = apply_events evs st) /\
  (e = PtyError (str "Subprocess died") \/
   e = PtyTimeoutError (str "Timeout | Buffer: "
                        ++ repr (slice_from (-150) (sanitize (buffer st'))))).
Proof.
  unfold read_until_ready. generalize (t0 + inject_Z timeout_ms / 1000)%Q as deadline.
  intros deadline. generalize 0%nat as i.
  revert st. induction env as [|evs env IH]; intros st i; simpl.
  - destruct (scan_markers _ _);
      [|destruct (Qle_bool _ _); [|destruct (negb _)]]; intros [= <- <- <-];
      (split; [exists []; reflexivity|]);
      first [right; reflexivity | left; reflexivity].
  - destruct (scan_markers _ _);
      [|destruct (Qle_bool _ _); [|destruct (negb _)]];
      try (intros [= <- <- <-];
           (split; [exists []; reflexivity|]);
           first [right; reflexivity | left; reflexivity]);
      try discriminate.
    intros H. apply IH in H. destruct H as [[evs' Hst] He].
    split; [|exact He].
    exists (evs ++ evs'). unfold apply_events in *. now rewrite fold_left_app.
Qed.

(** X13.  A timed-out read loses nothing: when more output arrives after
    the timeout and completes a marker, the next call returns the output
    accumulated before the timeout together with the new one. *)
Theorem read_until_ready_after_timeout
    (timeout_ms timeout_ms' : Z) (t0 t0' : Q) (clock clock' : nat -> Q)
    (env env' : list (list event)) (st : session) (chunk : list byte) :
  Forall (fun m => contains m (sanitize (buffer st)) = false) (markers st) ->
  (t0 + inject_Z timeout_ms / 1000 - clock 0%nat <= 0)%Q ->
  (exists m, In m (markers st) /\
             contains m (sanitize (buffer st ++ chunk)) = true) ->
  exists e,
    read_until_ready repr timeout_ms t0 clock env st = (Raised e, st, 0%nat) /\
    read_until_ready repr timeout_ms' t0' clock' env' (reader_append chunk st) =
      (Returned (sanitize (buffer st ++ chunk)),
       set_buffer [] (reader_append chunk st), 0%nat).
Proof.
  intros Hnone Hexp [m [Hin Hm]]. eexists. split.
  - unfold read_until_ready. apply ready_loop_expired;
      [now apply scan_markers_none | exact Hexp].
  - unfold read_until_ready.
    destruct (scan_markers_finds (markers (reader_append chunk st))
                (sanitize (buffer (reader_append chunk st))) m) as [m0 Hscan].
    + now rewrite reader_append_markers.
    + now rewrite reader_append_buffer.
    + rewrite (ready_loop_match _ _ _ _ _ _ Hscan).
      now rewrite reader_append_buffer.
Qed.

(** X14.  Two reads in sequence do not leak: after a read has returned,
    the text of the next one is made of the bytes that arrived since, and of
    nothing the first one returned. *)
Theorem read_until_ready_no_leak
    (timeout_ms timeout_ms' : Z) (t0 t0' : Q) (clock clock' : nat -> Q)
    (env env' : list (list event)) (st : session) (chunk : list byte) :
  (exists m, In m (markers st) /\ contains m (sanitize (buffer st)) = true) ->
  (exists m, In m (markers st) /\ contains m (sanitize chunk) = true) ->
  exists st1,
    read_until_ready repr timeout_ms t0 clock env st =
      (Returned (sanitize (buffer st)), st1, 0%nat) /\
    read_until_ready repr timeout_ms' t0' clock' env' (reader_append chunk st1) =
      (Returned (sanitize chunk), set_buffer [] (reader_append chunk st1), 0%nat).
Proof.
  intros [m [Hin Hm]] [m' [Hin' Hm']].
  destruct (scan_markers_finds _ _ _ Hin Hm) as [m0 Hscan].
  exists (set_buffer [] st). split.
  - unfold read_until_ready. apply (ready_loop_match _ _ _ _ _ _ Hscan).
  - unfold read_until_ready.
    assert (Hbuf : buffer (reader_append chunk (set_buffer [] st)) = chunk)
      by now rewrite reader_append_buffer.
    destruct (scan_markers_finds (markers (reader_append chunk (set_buffer [] st)))
                (sanitize (buffer (reader_append chunk (set_buffer [] st)))) m')
      as [m1 Hscan1].
    + now rewrite reader_append_markers.
    + now rewrite Hbuf.
    + rewrite (ready_loop_match _ _ _ _ _ _ Hscan1). now rewrite Hbuf.
Qed.

(** X15.  A marker that arrives while the call waits ends it: when the
    first turn has to wait and the reader then appends a chunk that completes
    a marker, the call returns after that one wait with the sanitized form
    of everything accumulated, even when the deadline has passed meanwhile. *)
Theorem read_until_ready_marker_arrives
    (timeout_ms : Z) (t0 : Q) (clock : nat -> Q) (env : list (list event))
    (st : session) (chunk : list byte) :
  Forall (fun m => contains m (sanitize (buffer st)) = false) (markers st) ->
  (0 < t0 + inject_Z timeout_ms / 1000 - clock 0%nat)%Q ->
  truthy (is_alive st) = true ->
  (exists m, In m (markers st) /\
             contains m (sanitize (buffer st ++ chunk)) = true) ->
  read_until_ready repr timeout_ms t0 clock ([ReaderChunk chunk] :: env) st =
    (Returned (sanitize (buffer st ++ chunk)),
     set_buffer [] (reader_append chunk st), 1%nat).
Proof.
  intros Hnone Hleft Halive [m [Hin Hm]]. unfold read_until_ready.
  rewrite ready_loop_wait by (try apply scan_markers_none; assumption).
  cbn [apply_events fold_left apply_event].
  destruct (scan_markers_finds (markers (reader_append chunk st))
              (sanitize (buffer (reader_append chunk st))) m) as [m0 Hscan].
  - now rewrite reader_append_markers.
  - now rewrite reader_append_buffer.
  - rewrite (ready_loop_match _ _ _ _ _ _ Hscan). now rewrite reader_append_buffer.
Qed.

(** X16.  The session stopping while a call waits (the reader leaves its
    loop, the child exits, another thread calls [close]) notifies nobody:
    the call goes on only when its wait ends, by the reader's notify for a
    chunk or by the timeout.  If by then no marker has arrived it raises at
    that turn and does not wait again: with the timeout error when the
    deadline has passed, which is always so when no chunk arrived, and with
    [PtyError("Subprocess died")] when a chunk woke it with time left. *)
Theorem read_until_ready_stopped_while_waiting
    (timeout_ms : Z) (t0 : Q) (clock : nat -> Q) (evs : list event)
    (env : list (list event)) (st : session) (stop : event) :
  Forall (fun m => contains m (sanitize (buffer st)) = false) (markers st) ->
  (0 < t0 + inject_Z timeout_ms / 1000 - clock 0%nat)%Q ->
  truthy (is_alive st) = true ->
  In stop evs ->
  (stop = ReaderExit \/ (exists rc, stop = ProcExit rc) \/
   exists reaped, stop = Closed reaped) ->
  Forall (fun m => contains m (sanitize (buffer (apply_events evs st))) = false)
         (markers st) ->
  ((exists chunk, In (ReaderChunk chunk) evs) \/
   (t0 + inject_Z timeout_ms / 1000 - clock 1%nat <= 0)%Q) ->
  exists e,
    read_until_ready repr timeout_ms t0 clock (evs :: env) st =
      (Raised e, apply_events evs st, 1%nat) /\
    ((0 < t0 + inject_Z timeout_ms / 1000 - clock 1%nat)%Q ->
     e = PtyError (str "Subprocess died")) /\
    ((t0 + inject_Z timeout_ms / 1000 - clock 1%nat <= 0)%Q ->
     e = PtyTimeoutError
           (str "Timeout | Buffer: "
            ++ repr (slice_from (-150) (sanitize (buffer (apply_events evs st)))))) /\
    ((forall chunk, ~ In (ReaderChunk chunk) evs) ->
     e = PtyTimeoutError
           (str "Timeout | Buffer: "
            ++ repr (slice_from (-150) (sanitize (buffer (apply_events evs st)))))).
Proof.
  intros Hnone Hleft Halive Hin Hstop Hnone' Hwake. unfold read_until_ready.
  rewrite ready_loop_wait by (try apply scan_markers_none; assumption).
  assert (Hscan : scan_markers (markers (apply_events evs st))
                    (sanitize (buffer (apply_events evs st))) = None).
  { apply scan_markers_none. now rewrite apply_events_markers. }
  assert (Hdead : truthy (is_alive (apply_events evs st)) = false)
    by (eapply apply_events_stop; eauto).
  destruct (Qlt_le_dec 0 (t0 + inject_Z timeout_ms / 1000 - clock 1%nat)) as [Hlt|Hle].
  - exists (PtyError (str "Subprocess died")). split; [now apply ready_loop_dead|].
    split; [reflexivity|]. split.
    + intros Hle. lra.
    + intros Hno. destruct Hwake as [[chunk Hc]|Hle]; [|lra].
      exfalso. exact (Hno chunk Hc).
  - eexists. split; [now apply ready_loop_expired|].
    split; [intros Hlt; lra|]. split; reflexivity.
Qed.

(** C7, as the code has it.  After [close] (and whatever the reader thread
    or the child still do afterwards) [is_alive] returns [False], and a
    [read_until_ready] whose buffer holds no marker fails in its first turn,
    without waiting: with [PtyError("Subprocess died")] when the timeout has
    not run out at the first deadline check, and with the timeout error
    when it has. *)
Theorem read_until_ready_after_close_fails_at_once
    (reaped : option Z) (st0 : session) (later : list event)
    (timeout_ms : Z) (t0 : Q) (clock : nat -> Q) (env : list (list event)) :
  let st := apply_events later (close reaped st0) in
  Forall (fun m => contains m (sanitize (buffer st)) = false) (markers st) ->
  is_alive st = PyBool false /\
  exists e,
    read_until_ready repr timeout_ms t0 clock env st = (Raised e, st, 0%nat) /\
    ((clock 0%nat - t0 < inject_Z timeout_ms / 1000)%Q ->
     e = PtyError (str "Subprocess died")) /\
    ((inject_Z timeout_ms / 1000 <= clock 0%nat - t0)%Q ->
     e = PtyTimeoutError
           (str "Timeout | Buffer: "
            ++ repr (slice_from (-150) (sanitize (buffer st))))).
Proof.
  intros st Hm.
  assert (Halive : is_alive st = PyBool false) by apply is_alive_after_close.
  split; [exact Halive|].
  pose proof (scan_markers_none _ _ Hm) as Hscan.
  unfold read_until_ready.
  destruct (Qlt_le_dec 0 (t0 + inject_Z timeout_ms / 1000 - clock 0%nat)) as [Hlt|Hle].
  - exists (PtyError (str "Subprocess died")). split.
    + apply ready_loop_dead; [exact Hscan | exact Hlt | now rewrite Halive].
    + split; [reflexivity | intros H; lra].
  - eexists. split; [now apply ready_loop_expired|].
    split; [intros H; lra | reflexivity].
Qed.

End ReadyWaitCalls.

(* ================================================================= *)
(** ** The writer: edge behaviour *)

Lemma drop_while_all {A : Type} (p : A -> bool) (a b : list A) :
  Forall (fun x => p x = true) a -> drop_while p (a ++ b) = drop_while p b.
Proof.
  induction 1 as [|x a Hx _ IH]; [reflexivity|]. simpl. now rewrite Hx.
Qed.

Lemma rstrip_app_space text ws :
  Forall (fun c => isspace c = true) ws -> rstrip (text ++ ws) = rstrip text.
Proof.
  intros Hws. unfold rstrip. rewrite rev_app_distr.
  rewrite drop_while_all; [reflexivity | now apply Forall_rev].
Qed.

Lemma rstrip_keeps text c : In c text -> isspace c = false -> In c (rstrip text).
Proof.
  intros Hin Hc. destruct (rstrip_spec text) as [ws [Hsplit [Hws _]]].
  rewrite Hsplit in Hin. apply in_app_or in Hin. destruct Hin as [Hin|Hin]; [exact Hin|].
  rewrite Forall_forall in Hws. specialize (Hws c Hin). congruence.
Qed.

Lemma utf8_encode_fails s c : In c s -> is_scalar c = false -> utf8_encode s = None.
Proof.
  induction s as [|x s IH]; intros Hin Hc; [contradiction|]. simpl.
  destruct Hin as [->|Hin]; [now rewrite Hc|].
  destruct (is_scalar x); [|reflexivity]. now rewrite IH.
Qed.

Lemma write_open text bs st :
  fd_open (master_fd st) = true -> utf8_encode (rstrip text) = Some bs ->
  write text st = (Ok tt, set_pty_input (pty_input st ++ bs ++ [x0a]) st).
Proof.
  intros Hfd Hbs. unfold write.
  rewrite (utf8_encode_app (rstrip text) _ bs [x0a] Hbs) by reflexivity.
  unfold write_raw. now rewrite Hfd.
Qed.


Lemma close_fd reaped st : fd_open (master_fd (close reaped st)) = false.
Proof.
  unfold close.
  destruct (proc (set_running false st)) as [p|]; [destruct reaped as [rc|];
    [destruct (returncode p)|]|]; simpl;
  destruct (fd_open (master_fd st)) eqn:E; simpl; auto.
Qed.

Lemma close_keeps reaped st :
  buffer (close reaped st) = buffer st /\
  history (close reaped st) = history st /\
  pty_input (close reaped st) = pty_input st /\
  max_history (close reaped st) = max_history st.
Proof.
  unfold close.
  destruct (proc (set_running false st)) as [p|]; [destruct reaped as [rc|];
    [destruct (returncode p)|]|]; simpl;
  destruct (fd_open (master_fd st)); simpl; auto.
Qed.

(** X17.  [write] does not depend on whitespace at the end of the text:
    the same bytes are sent with or without it. *)
Theorem write_ignores_trailing_space (text ws : list Z) (st : session) :
  Forall (fun c => isspace c = true) ws ->
  write (text ++ ws) st = write text st.
Proof. intros Hws. unfold write. now rewrite rstrip_app_space. Qed.

(** X18.  A text with a lone surrogate cannot be encoded: [write] raises
    [UnicodeEncodeError] and nothing reaches the terminal. *)
Theorem write_surrogate_raises (text : list Z) (c : Z) (st : session) :
  In c text -> 0xD800 <= c <= 0xDFFF ->
  write text st = (Raise UnicodeEncodeError, st).
Proof.
  intros Hin Hc. unfold write.
  rewrite (utf8_encode_fails _ c); [reflexivity| |].
  - apply in_or_app. left. apply rstrip_keeps; [exact Hin|].
    unfold isspace.
    repeat match goal with
           | |- context [?a <=? ?b] =>
               first [ rewrite (proj2 (Z.leb_le a b)) by lia
                     | rewrite (proj2 (Z.leb_gt a b)) by lia ]
           | |- context [?a =? ?b] => rewrite (proj2 (Z.eqb_neq a b)) by lia
           end.
    reflexivity.
  - unfold is_scalar.
    rewrite (proj2 (Z.leb_le 0xD800 c)), (proj2 (Z.leb_le c 0xDFFF)) by lia.
    now rewrite andb_false_r.
Qed.

Section WriterFacts.
Variable upper : list Z -> list Z.

(** X19.  When the upper-cased argument is a single character, a letter
    [A]..[Z] makes [send_control] return normally, on an open session, with
    the terminal having received one more byte, the position of the letter
    in the alphabet; any other single character leaves the session as it
    is. *)
Theorem send_control_one_char (c u : Z) (st : session) :
  upper [c] = [u] ->
  fd_open (master_fd st) = true ->
  (0x41 <= u <= 0x5A ->
   exists b,
     fst (send_control upper [c] st) = Ok tt /\
     pty_input (snd (send_control upper [c] st)) = pty_input st ++ [b] /\
     b2z b = u - 0x40) /\
  (u < 0x41 \/ 0x5A < u -> send_control upper [c] st = (Ok tt, st)).
Proof.
  intros Hu Hfd. rewrite (send_control_single upper c u st Hu). split.
  - intros Hr. rewrite (proj2 (Z.leb_le 0x41 u)), (proj2 (Z.leb_le u 0x5A)) by lia.
    cbn [andb]. unfold write_raw. rewrite Hfd.
    exists (z2b (u - 0x41 + 1)). cbn [fst snd pty_input set_pty_input].
    repeat split. rewrite b2z_z2b by lia. lia.
  - intros Hr.
    destruct (Z.leb_spec 0x41 u); destruct (Z.leb_spec u 0x5A);
      try reflexivity; lia.
Qed.

(** X20.  Whatever its argument, [send_control] hands the terminal nothing
    or a single byte between 1 and 26. *)
Theorem send_control_at_most_one_byte (char : list Z) (st : session) :
  pty_input (snd (send_control upper char st)) = pty_input st \/
  exists b, pty_input (snd (send_control upper char st)) = pty_input st ++ [b] /\
            1 <= b2z b <= 26.
Proof.
  unfold send_control.
  destruct (str_le (str "A") (upper char) && str_le (upper char) (str "Z")) eqn:Hcmp;
    [|now left].
  destruct (upper char) as [|o [|o' rest]]; cbn [ord]; try (now left).
  apply andb_true_iff in Hcmp. destruct Hcmp as [H1 H2].
  change (str "A") with [0x41] in H1. change (str "Z") with [0x5A] in H2.
  cbn [str_le] in H1, H2. rewrite andb_true_r in H1, H2.
  assert (Ho : 0x41 <= o <= 0x5A).
  { apply orb_true_iff in H1. apply orb_true_iff in H2.
    rewrite Z.ltb_lt, Z.eqb_eq in H1, H2. lia. }
  rewrite (proj2 (Z.leb_le 0 (o - 0x41 + 1))), (proj2 (Z.ltb_lt (o - 0x41 + 1) 256)) by lia.
  cbn [andb snd]. unfold write_raw.
  destruct (fd_open (master_fd st)); [|now left].
  right. exists (z2b (o - 0x41 + 1)). split; [reflexivity|].
  rewrite b2z_z2b by lia. lia.
Qed.

(** X21.  After [close] nothing reaches the terminal any more: [write_raw],
    [write] and [send_control] leave what was delivered as it was. *)
Theorem no_write_after_close (reaped : option Z) (data : list byte)
    (text char : list Z) (st : session) :
  pty_input (write_raw data (close reaped st)) = pty_input st /\
  pty_input (snd (write text (close reaped st))) = pty_input st /\
  pty_input (snd (send_control upper char (close reaped st))) = pty_input st.
Proof.
  pose proof (close_fd reaped st) as Hfd.
  destruct (close_keeps reaped st) as [_ [_ [Hw _]]].
  assert (Hraw : forall d, write_raw d (close reaped st) = close reaped st).
  { intros d. unfold write_raw. now rewrite Hfd. }
  repeat split.
  - now rewrite Hraw.
  - unfold write. destruct (utf8_encode _); cbn [snd]; now rewrite ?Hraw.
  - unfold send_control.
    destruct (_ && _); [|exact Hw].
    destruct (ord _); [|exact Hw].
    destruct (_ && _); cbn [snd]; now rewrite ?Hraw.
Qed.

End WriterFacts.

(* ================================================================= *)
(** ** Commands and restart *)

Lemma reader_append_pty_input chunk st :
  pty_input (reader_append chunk st) = pty_input st.
Proof. unfold reader_append. simpl. now destruct (_ >? _). Qed.

(** The other threads never write to the terminal. *)
Lemma apply_events_pty_input evs st :
  pty_input (apply_events evs st) = pty_input st.
Proof.
  revert st. induction evs as [|e evs IH]; intros st; [reflexivity|].
  simpl. rewrite IH. destruct e as [chunk| |rc|reaped]; cbn [apply_event].
  - apply reader_append_pty_input.
  - reflexivity.
  - destruct (proc st) as [p|]; [destruct (returncode p)|]; reflexivity.
  - apply close_keeps.
Qed.

Lemma apply_event_written w st e :
  apply_event (set_pty_input w st) e = set_pty_input w (apply_event st e).
Proof.
  destruct e as [chunk| |rc|reaped]; cbn [apply_event].
  - unfold reader_append. cbn. now destruct (_ >? _).
  - reflexivity.
  - cbn. destruct (proc st) as [p|]; [destruct (returncode p)|]; reflexivity.
  - unfold close. cbn.
    destruct (proc st) as [p|]; [destruct reaped as [rc|];
      [destruct (returncode p)|]|]; cbn;
    destruct (fd_open (master_fd st)); reflexivity.
Qed.

(** What the session has written does not change what the other threads
    make of its buffer. *)
Lemma apply_events_buffer_written evs w st :
  buffer (apply_events evs (set_pty_input w st)) = buffer (apply_events evs st).
Proof.
  assert (H : apply_events evs (set_pty_input w st) =
              set_pty_input w (apply_events evs st)).
  { revert st. induction evs as [|e evs IH]; intros st; [reflexivity|].
    simpl. now rewrite apply_event_written, IH. }
  now rewrite H.
Qed.

Section CommandFacts.
Variable repr : list Z -> list Z.

(** X22.  A command whose read finds a marker in the buffer at its first
    look returns at once: the command has been written (the terminal has
    received its line), and the text returned is the sanitized buffer as it
    stood then, with no wait for the output of the command.  With nothing
    arriving in between, that is the case of a marker left by output that
    was never read. *)
Theorem send_and_read_stale_marker
    (cmd : list Z) (timeout_ms : Z) (t0 : Q) (clock : nat -> Q)
    (arrived : list event) (env : list (list event)) (st : session) :
  fd_open (master_fd st) = true ->
  Forall scalar cmd ->
  (exists m, In m (markers st) /\
             contains m (sanitize (buffer (apply_events arrived st))) = true) ->
  exists bs st',
    utf8_encode (rstrip cmd) = Some bs /\
    send_and_read_until_ready repr cmd timeout_ms t0 clock arrived env st =
      (Returned (sanitize (buffer (apply_events arrived st))), st', 0%nat) /\
    pty_input st' = pty_input st ++ bs ++ [x0a] /\
    buffer st' = [].
Proof.
  intros Hfd Hsc [m [Hin Hm]].
  assert (Hr : Forall scalar (rstrip cmd)).
  { destruct (rstrip_spec cmd) as [ws [Hsplit _]]. rewrite Hsplit in Hsc.
    apply Forall_app in Hsc. tauto. }
  destruct (utf8_encode_total _ Hr) as [bs Hbs].
  set (st1 := set_pty_input (pty_input st ++ bs ++ [x0a]) st).
  assert (Hbuf : buffer (apply_events arrived st1) = buffer (apply_events arrived st))
    by apply apply_events_buffer_written.
  exists bs, (set_buffer [] (apply_events arrived st1)).
  split; [exact Hbs|]. split; [|split; [|reflexivity]].
  - unfold send_and_read_until_ready. rewrite (write_open cmd bs st Hfd Hbs).
    fold st1.
    destruct (scan_markers_finds (markers (apply_events arrived st1))
                (sanitize (buffer (apply_events arrived st1))) m) as [m0 Hscan].
    + now rewrite apply_events_markers.
    + now rewrite Hbuf.
    + unfold read_until_ready.
      rewrite (ready_loop_match repr _ _ _ _ _ m0 Hscan). now rewrite Hbuf.
  - cbn [pty_input set_buffer]. now rewrite apply_events_pty_input.
Qed.


(** X24.  [restart] without the wait for the prompt: when the new process
    is spawned, the session is alive on the new descriptor with an empty
    buffer and an empty history, and markers and cap as before; when the
    spawn fails, the accumulators are empty as well, the session is not
    alive and [master_fd] names the new descriptor. *)
Theorem restart_fresh
    (timeout_ms : Z) (reaped : option Z) (master : Z)
    (t0 : Q) (clock : nat -> Q) (env : list (list event)) (st : session) :
  (exists st',
     restart repr false timeout_ms reaped master true t0 clock env st = (NoWait, st') /\
     buffer st' = [] /\ history st' = [] /\
     is_alive st' = PyBool true /\ master_fd st' = Some master /\
     markers st' = markers st /\ max_history st' = max_history st /\
     pty_input st' = pty_input st) /\
  (exists st',
     restart repr false timeout_ms reaped master false t0 clock env st = (SpawnFailed, st') /\
     buffer st' = [] /\ history st' = [] /\
     is_alive st' = PyBool false /\ master_fd st' = Some master).
Proof.
  destruct (close_keeps reaped st) as [_ [_ [Hw Hcap]]].
  pose proof (close_markers reaped st) as Hms.
  pose proof (close_running reaped st) as Hrun.
  split; eexists; (split; [reflexivity|]); cbn.
  - repeat split; assumption.
  - repeat split. apply is_alive_stopped. exact Hrun.
Qed.

End CommandFacts.

(* ================================================================= *)
(** ** The environment of the child *)

Lemma dict_get_set_same k v d : dict_get k (dict_set k v d) = Some v.
Proof.
  induction d as [|[k' v'] d IH]; simpl.
  - now rewrite String.eqb_refl.
  - destruct (String.eqb k k') eqn:E; simpl; rewrite E; [reflexivity | exact IH].
Qed.

Lemma dict_get_set_other k k' v d :
  k <> k' -> dict_get k' (dict_set k v d) = dict_get k' d.
Proof.
  intros Hk. induction d as [|[k0 v0] d IH]; simpl.
  - destruct (String.eqb_spec k' k); [congruence | reflexivity].
  - destruct (String.eqb_spec k k0) as [->|Hk0]; simpl.
    + destruct (String.eqb_spec k' k0); [congruence | reflexivity].
    + destruct (String.eqb_spec k' k0); [reflexivity | exact IH].
Qed.

(** X25.  Whatever the environment of the caller, the child is started
    with [TERM=dumb], [PS1] set to a string that is one of the default ready
    markers, an empty [PROMPT_COMMAND], [VTE_VERSION=0] and
    [INSIDE_EMACS=1]; every other variable is passed on as it is. *)
Theorem child_env_overrides (environ : dict) :
  dict_get "TERM" (child_env environ) = Some "dumb"%string /\
  dict_get "PS1" (child_env environ) = Some "$ "%string /\
  In (str "$ ") (init_markers None) /\
  dict_get "PROMPT_COMMAND" (child_env environ) = Some ""%string /\
  dict_get "VTE_VERSION" (child_env environ) = Some "0"%string /\
  dict_get "INSIDE_EMACS" (child_env environ) = Some "1"%string /\
  forall k,
    ~ In k ["TERM"; "PS1"; "PROMPT_COMMAND"; "VTE_VERSION"; "INSIDE_EMACS"]%string ->
    dict_get k (child_env environ) = dict_get k environ.
Proof.
  unfold child_env. repeat split.
  - rewrite !dict_get_set_other by discriminate. apply dict_get_set_same.
  - rewrite !dict_get_set_other by discriminate. apply dict_get_set_same.
  - left. reflexivity.
  - rewrite !dict_get_set_other by discriminate. apply dict_get_set_same.
  - rewrite !dict_get_set_other by discriminate. apply dict_get_set_same.
  - apply dict_get_set_same.
  - intros k Hk. simpl in Hk.
    rewrite !dict_get_set_other by (intros <-; apply Hk; auto 10). reflexivity.
Qed.

(* ================================================================= *)
(** ** The further statements at sample values *)

Ltac by_evaluation :=
  repeat constructor; vm_compute; first [reflexivity | discriminate | split; discriminate].

Lemma sanitize_removes_csi_witness :
  Forall (fun b => b2z b <> 0x1B) [x61] /\
  Forall csi_param [x33; x31] /\ Forall csi_intermediate [] /\ csi_final x6d /\
  sanitize ([x61] ++ x1b :: x5b :: [x33; x31] ++ [] ++ x6d :: [x62]) =
  sanitize ([x61] ++ [x62]).
Proof.
  assert (H1 : Forall (fun b => b2z b <> 0x1B) [x61]) by by_evaluation.
  assert (H2 : Forall csi_param [x33; x31]) by by_evaluation.
  assert (H3 : Forall csi_intermediate []) by constructor.
  assert (H4 : csi_final x6d) by by_evaluation.
  repeat (split; [assumption|]).
  exact (sanitize_removes_csi [x61] [x33; x31] [] x6d [x62] H1 H2 H3 H4).
Defined.

Lemma sanitize_removes_two_byte_escape_witness :
  Forall (fun b => b2z b <> 0x1B) [x61] /\ escape_letter x4d /\
  sanitize ([x61] ++ x1b :: x4d :: [x62]) = sanitize ([x61] ++ [x62]).
Proof.
  assert (H1 : Forall (fun b => b2z b <> 0x1B) [x61]) by by_evaluation.
  assert (H2 : escape_letter x4d) by (left; by_evaluation).
  repeat (split; [assumption|]).
  exact (sanitize_removes_two_byte_escape [x61] x4d [x62] H1 H2).
Defined.

Lemma sanitize_removes_leaked_artifact_witness :
  0x41 <= b2z x41 <= 0x5A /\ Forall printable [x78] /\
  sanitize (x31 :: x33 :: x33 :: x3b :: x41 :: x3b :: [x78] ++ x07 :: [x24; x20]) =
  sanitize [x24; x20].
Proof.
  assert (H1 : 0x41 <= b2z x41 <= 0x5A) by by_evaluation.
  assert (H2 : Forall printable [x78]) by by_evaluation.
  repeat (split; [assumption|]).
  exact (sanitize_removes_leaked_artifact x41 [x78] [x24; x20] H1 H2).
Defined.

Lemma sanitize_removes_osc_133_witness :
  0x41 <= b2z x41 <= 0x5A /\ Forall printable [x78] /\
  sanitize (x1b :: x5d :: x31 :: x33 :: x33 :: x3b :: x41 :: x3b
            :: [x78] ++ x07 :: [x24; x20]) =
  sanitize [x24; x20].
Proof.
  assert (H1 : 0x41 <= b2z x41 <= 0x5A) by by_evaluation.
  assert (H2 : Forall printable [x78]) by by_evaluation.
  repeat (split; [assumption|]).
  exact (sanitize_removes_osc_133 x41 [x78] [x24; x20] H1 H2).
Defined.

Lemma sanitize_encode_clean_text_witness :
  Forall clean [0x68; 0xE9; 0x0A] /\ Forall scalar [0x68; 0xE9; 0x0A] /\
  exists bs, utf8_encode [0x68; 0xE9; 0x0A] = Some bs /\
             sanitize bs = [0x68; 0xE9; 0x0A].
Proof.
  assert (H1 : Forall clean [0x68; 0xE9; 0x0A]).
  { repeat constructor; unfold clean; lia. }
  assert (H2 : Forall scalar [0x68; 0xE9; 0x0A]) by (repeat constructor).
  repeat (split; [assumption|]).
  exact (sanitize_encode_clean_text [0x68; 0xE9; 0x0A] H1 H2).
Defined.

Lemma sanitize_cut_csi_witness :
  Forall printable [x61; x62] /\ Forall csi_param [x31; x3b; x33] /\
  sanitize ([x61; x62] ++ x1b :: x5b :: [x31; x3b; x33]) =
  map b2z ([x61; x62] ++ x5b :: [x31; x3b; x33]).
Proof.
  assert (H1 : Forall printable [x61; x62]) by by_evaluation.
  assert (H2 : Forall csi_param [x31; x3b; x33]) by by_evaluation.
  repeat (split; [assumption|]).
  exact (sanitize_cut_csi [x61; x62] [x31; x3b; x33] H1 H2).
Defined.

Lemma reader_loop_buffer_witness :
  _running sample_session = true /\
  buffer (_reader_loop [Data [x61]; NotReady; Data [x62]; Data []; Data [x63]]
            sample_session) =
  buffer sample_session
  ++ received [Data [x61]; NotReady; Data [x62]; Data []; Data [x63]].
Proof.
  assert (H1 : _running sample_session = true) by reflexivity.
  split; [assumption|].
  exact (reader_loop_buffer [Data [x61]; NotReady; Data [x62]; Data []; Data [x63]]
           sample_session H1).
Defined.

Lemma reader_loop_history_newest_witness :
  _running sample_session = true /\
  0 < max_history sample_session /\
  Z.of_nat (length (history sample_session)) <= max_history sample_session /\
  history (_reader_loop [Data [x61]; IOError; Data [x63]] sample_session) =
    slice_from (- max_history sample_session)
      (history sample_session ++ received [Data [x61]; IOError; Data [x63]]) /\
  Z.of_nat (length (history (_reader_loop [Data [x61]; IOError; Data [x63]]
                               sample_session)))
  <= max_history sample_session.
Proof.
  assert (H1 : _running sample_session = true) by reflexivity.
  assert (H2 : 0 < max_history sample_session) by reflexivity.
  assert (H3 : Z.of_nat (length (history sample_session)) <= max_history sample_session)
    by (vm_compute; discriminate).
  repeat (split; [assumption|]).
  exact (reader_loop_history_newest [Data [x61]; IOError; Data [x63]]
           sample_session H1 H2 H3).
Defined.

Lemma read_until_ready_returned_witness :
  read_until_ready repr_plain 10000 0 (fun _ => 0%Q) [] sample_session =
    (Returned (sanitize (buffer sample_session)), set_buffer [] sample_session, 0%nat) /\
  exists m evs,
    In m (markers sample_session) /\
    (exists pre post, sanitize (buffer sample_session) = pre ++ m ++ post) /\
    sanitize (buffer sample_session) =
      sanitize (buffer (apply_events evs sample_session)) /\
    buffer (set_buffer [] sample_session) = [] /\
    history (set_buffer [] sample_session) =
      history (apply_events evs sample_session).
Proof.
  assert (H : read_until_ready repr_plain 10000 0 (fun _ => 0%Q) [] sample_session =
              (Returned (sanitize (buffer sample_session)),
               set_buffer [] sample_session, 0%nat)) by reflexivity.
  split; [exact H|].
  exact (read_until_ready_returned repr_plain 10000 0 (fun _ => 0%Q) []
           sample_session _ _ 0%nat H).
Defined.

Lemma read_until_ready_raised_witness :
  read_until_ready repr_plain 1000 0 (fun _ => 2%Q) [] busy_session =
    (Raised (PtyTimeoutError_init repr_plain (str "Timeout")
               (sanitize (buffer busy_session))), busy_session, 0%nat) /\
  (exists evs, busy_session = apply_events evs busy_session) /\
  (PtyTimeoutError_init repr_plain (str "Timeout") (sanitize (buffer busy_session)) =
     PtyError (str "Subprocess died") \/
   PtyTimeoutError_init repr_plain (str "Timeout") (sanitize (buffer busy_session)) =
     PtyTimeoutError (str "Timeout | Buffer: "
        ++ repr_plain (slice_from (-150) (sanitize (buffer busy_session))))).
Proof.
  assert (H : read_until_ready repr_plain 1000 0 (fun _ => 2%Q) [] busy_session =
    (Raised (PtyTimeoutError_init repr_plain (str "Timeout")
               (sanitize (buffer busy_session))), busy_session, 0%nat))
    by reflexivity.
  split; [exact H|].
  exact (read_until_ready_raised repr_plain 1000 0 (fun _ => 2%Q) []
           busy_session _ _ 0%nat H).
Defined.

Lemma read_until_ready_after_timeout_witness :
  Forall (fun m => contains m (sanitize (buffer busy_session)) = false)
         (markers busy_session) /\
  (0 + inject_Z 1000 / 1000 - 2 <= 0)%Q /\
  (exists m, In m (markers busy_session) /\
             contains m (sanitize (buffer busy_session ++ [x24; x20])) = true) /\
  exists e,
    read_until_ready repr_plain 1000 0 (fun _ => 2%Q) [] busy_session =
      (Raised e, busy_session, 0%nat) /\
    read_until_ready repr_plain 1000 5 (fun _ => 5%Q) []
        (reader_append [x24; x20] busy_session) =
      (Returned (sanitize (buffer busy_session ++ [x24; x20])),
       set_buffer [] (reader_append [x24; x20] busy_session), 0%nat).
Proof.
  assert (H1 : Forall (fun m => contains m (sanitize (buffer busy_session)) = false)
                 (markers busy_session)) by (repeat constructor).
  assert (H2 : (0 + inject_Z 1000 / 1000 - 2 <= 0)%Q) by (vm_compute; discriminate).
  assert (H3 : exists m, In m (markers busy_session) /\
             contains m (sanitize (buffer busy_session ++ [x24; x20])) = true).
  { exists (str "$ "). split; [left; reflexivity | vm_compute; reflexivity]. }
  repeat (split; [assumption|]).
  exact (read_until_ready_after_timeout repr_plain 1000 1000 0 5 (fun _ => 2%Q)
           (fun _ => 5%Q) [] [] busy_session [x24; x20] H1 H2 H3).
Defined.

Lemma read_until_ready_no_leak_witness :
  (exists m, In m (markers sample_session) /\
             contains m (sanitize (buffer sample_session)) = true) /\
  (exists m, In m (markers sample_session) /\
             contains m (sanitize [x6f; x6b; x0a; x24; x20]) = true) /\
  exists st1,
    read_until_ready repr_plain 1000 0 (fun _ => 0%Q) [] sample_session =
      (Returned (sanitize (buffer sample_session)), st1, 0%nat) /\
    read_until_ready repr_plain 1000 0 (fun _ => 0%Q) []
        (reader_append [x6f; x6b; x0a; x24; x20] st1) =
      (Returned (sanitize [x6f; x6b; x0a; x24; x20]),
       set_buffer [] (reader_append [x6f; x6b; x0a; x24; x20] st1), 0%nat).
Proof.
  assert (H1 : exists m, In m (markers sample_session) /\
             contains m (sanitize (buffer sample_session)) = true).
  { exists (str "$ "). split; [left; reflexivity | vm_compute; reflexivity]. }
  assert (H2 : exists m, In m (markers sample_session) /\
             contains m (sanitize [x6f; x6b; x0a; x24; x20]) = true).
  { exists (str "$ "). split; [left; reflexivity | vm_compute; reflexivity]. }
  repeat (split; [assumption|]).
  exact (read_until_ready_no_leak repr_plain 1000 1000 0 0 (fun _ => 0%Q)
           (fun _ => 0%Q) [] [] sample_session [x6f; x6b; x0a; x24; x20] H1 H2).
Defined.

Lemma read_until_ready_marker_arrives_witness :
  Forall (fun m => contains m (sanitize (buffer busy_session)) = false)
         (markers busy_session) /\
  (0 < 0 + inject_Z 1000 / 1000 - 0)%Q /\
  truthy (is_alive busy_session) = true /\
  (exists m, In m (markers busy_session) /\
             contains m (sanitize (buffer busy_session ++ [x24; x20])) = true) /\
  read_until_ready repr_plain 1000 0 (fun _ => 0%Q) ([ReaderChunk [x24; x20]] :: [])
      busy_session =
    (Returned (sanitize (buffer busy_session ++ [x24; x20])),
     set_buffer [] (reader_append [x24; x20] busy_session), 1%nat).
Proof.
  assert (H1 : Forall (fun m => contains m (sanitize (buffer busy_session)) = false)
                 (markers busy_session)) by (repeat constructor).
  assert (H2 : (0 < 0 + inject_Z 1000 / 1000 - 0)%Q) by reflexivity.
  assert (H3 : truthy (is_alive busy_session) = true) by reflexivity.
  assert (H4 : exists m, In m (markers busy_session) /\
             contains m (sanitize (buffer busy_session ++ [x24; x20])) = true).
  { exists (str "$ "). split; [left; reflexivity | vm_compute; reflexivity]. }
  repeat (split; [assumption|]).
  exact (read_until_ready_marker_arrives repr_plain 1000 0 (fun _ => 0%Q) []
           busy_session [x24; x20] H1 H2 H3 H4).
Defined.

Lemma read_until_ready_stopped_while_waiting_witness :
  Forall (fun m => contains m (sanitize (buffer busy_session)) = false)
         (markers busy_session) /\
  (0 < 0 + inject_Z 1000 / 1000 - wake_clock 0%nat)%Q /\
  truthy (is_alive busy_session) = true /\
  In (ProcExit 0) [ProcExit 0; ReaderChunk [x62; x79; x65; x0a]] /\
  (ProcExit 0 = ReaderExit \/ (exists rc, ProcExit 0 = ProcExit rc) \/
   exists reaped, ProcExit 0 = Closed reaped) /\
  Forall (fun m => contains m
            (sanitize (buffer (apply_events
               [ProcExit 0; ReaderChunk [x62; x79; x65; x0a]] busy_session))) = false)
         (markers busy_session) /\
  ((exists chunk, In (ReaderChunk chunk)
                     [ProcExit 0; ReaderChunk [x62; x79; x65; x0a]]) \/
   (0 + inject_Z 1000 / 1000 - wake_clock 1%nat <= 0)%Q) /\
  exists e,
    read_until_ready repr_plain 1000 0 wake_clock
        ([ProcExit 0; ReaderChunk [x62; x79; x65; x0a]] :: []) busy_session =
      (Raised e,
       apply_events [ProcExit 0; ReaderChunk [x62; x79; x65; x0a]] busy_session,
       1%nat) /\
    ((0 < 0 + inject_Z 1000 / 1000 - wake_clock 1%nat)%Q ->
     e = PtyError (str "Subprocess died")) /\
    ((0 + inject_Z 1000 / 1000 - wake_clock 1%nat <= 0)%Q ->
     e = PtyTimeoutError
           (str "Timeout | Buffer: "
            ++ repr_plain (slice_from (-150) (sanitize (buffer (apply_events
                 [ProcExit 0; ReaderChunk [x62; x79; x65; x0a]] busy_session)))))) /\
    ((forall chunk, ~ In (ReaderChunk chunk)
                      [ProcExit 0; ReaderChunk [x62; x79; x65; x0a]]) ->
     e = PtyTimeoutError
           (str "Timeout | Buffer: "
            ++ repr_plain (slice_from (-150) (sanitize (buffer (apply_events
                 [ProcExit 0; ReaderChunk [x62; x79; x65; x0a]] busy_session)))))).
Proof.
  assert (H1 : Forall (fun m => contains m (sanitize (buffer busy_session)) = false)
                 (markers busy_session)) by (repeat constructor).
  assert (H2 : (0 < 0 + inject_Z 1000 / 1000 - wake_clock 0%nat)%Q) by reflexivity.
  assert (H3 : truthy (is_alive busy_session) = true) by reflexivity.
  assert (H4 : In (ProcExit 0) [ProcExit 0; ReaderChunk [x62; x79; x65; x0a]])
    by (left; reflexivity).
  assert (H5 : ProcExit 0 = ReaderExit \/ (exists rc, ProcExit 0 = ProcExit rc) \/
               exists reaped, ProcExit 0 = Closed reaped)
    by (right; left; exists 0; reflexivity).
  assert (H6 : Forall (fun m => contains m
            (sanitize (buffer (apply_events
               [ProcExit 0; ReaderChunk [x62; x79; x65; x0a]] busy_session))) = false)
         (markers busy_session)) by (repeat constructor).
  assert (H7 : (exists chunk, In (ReaderChunk chunk)
                     [ProcExit 0; ReaderChunk [x62; x79; x65; x0a]]) \/
               (0 + inject_Z 1000 / 1000 - wake_clock 1%nat <= 0)%Q).
  { left. exists [x62; x79; x65; x0a]. right. left. reflexivity. }
  repeat (split; [assumption|]).
  exact (read_until_ready_stopped_while_waiting repr_plain 1000 0 wake_clock
           [ProcExit 0; ReaderChunk [x62; x79; x65; x0a]] [] busy_session
           (ProcExit 0) H1 H2 H3 H4 H5 H6 H7).
Defined.

Lemma read_until_ready_after_close_fails_at_once_witness :
  Forall (fun m => contains m
            (sanitize (buffer (apply_events [] (close (Some (-9)) busy_session)))) = false)
         (markers (apply_events [] (close (Some (-9)) busy_session))) /\
  is_alive (apply_events [] (close (Some (-9)) busy_session)) = PyBool false /\
  exists e,
    read_until_ready repr_plain 10000 0 wake_clock []
        (apply_events [] (close (Some (-9)) busy_session)) =
      (Raised e, apply_events [] (close (Some (-9)) busy_session), 0%nat) /\
    ((wake_clock 0%nat - 0 < inject_Z 10000 / 1000)%Q ->
     e = PtyError (str "Subprocess died")) /\
    ((inject_Z 10000 / 1000 <= wake_clock 0%nat - 0)%Q ->
     e = PtyTimeoutError
           (str "Timeout | Buffer: "
            ++ repr_plain (slice_from (-150) (sanitize (buffer
                 (apply_events [] (close (Some (-9)) busy_session))))))).
Proof.
  assert (H : Forall (fun m => contains m
            (sanitize (buffer (apply_events [] (close (Some (-9)) busy_session)))) = false)
         (markers (apply_events [] (close (Some (-9)) busy_session))))
    by (repeat constructor).
  split; [exact H|].
  exact (read_until_ready_after_close_fails_at_once repr_plain (Some (-9))
           busy_session [] 10000 0 wake_clock [] H).
Defined.

(** C7, the claim as stated fails: a closed session, no marker in the
    buffer, a positive timeout of 1 ms and a first deadline check 1 ms after
    the call: the error is the timeout, not the death of the process. *)
Lemma read_until_ready_after_close_times_out :
  (0 < 1)%Z /\
  is_alive (close (Some (-9)) busy_session) = PyBool false /\
  Forall (fun m => contains m
            (sanitize (buffer (close (Some (-9)) busy_session))) = false)
         (markers (close (Some (-9)) busy_session)) /\
  read_until_ready repr_plain 1 0 (fun _ => (1 # 1000)%Q) []
      (close (Some (-9)) busy_session) =
    (Raised (PtyTimeoutError
       (str "Timeout | Buffer: " ++ repr_plain (sanitize (buffer busy_session)))),
     close (Some (-9)) busy_session, 0%nat).
Proof. repeat split; try reflexivity. repeat constructor. Qed.

Lemma write_ignores_trailing_space_witness :
  Forall (fun c => isspace c = true) [0x20; 0x20; 0x0A] /\
  write (str "ls" ++ [0x20; 0x20; 0x0A]) sample_session = write (str "ls") sample_session.
Proof.
  assert (H : Forall (fun c => isspace c = true) [0x20; 0x20; 0x0A])
    by (repeat constructor).
  split; [exact H|].
  exact (write_ignores_trailing_space (str "ls") [0x20; 0x20; 0x0A] sample_session H).
Defined.

Lemma write_surrogate_raises_witness :
  In 0xD800 [0x61; 0xD800] /\ 0xD800 <= 0xD800 <= 0xDFFF /\
  write [0x61; 0xD800] sample_session = (Raise UnicodeEncodeError, sample_session).
Proof.
  assert (H1 : In 0xD800 [0x61; 0xD800]) by (right; left; reflexivity).
  assert (H2 : 0xD800 <= 0xD800 <= 0xDFFF) by lia.
  repeat (split; [assumption|]).
  exact (write_surrogate_raises [0x61; 0xD800] 0xD800 sample_session H1 H2).
Defined.

Lemma send_control_one_char_witness :
  upper_latin1 [0x63] = [0x43] /\
  fd_open (master_fd sample_session) = true /\
  (0x41 <= 0x43 <= 0x5A ->
   exists b,
     fst (send_control upper_latin1 [0x63] sample_session) = Ok tt /\
     pty_input (snd (send_control upper_latin1 [0x63] sample_session)) =
       pty_input sample_session ++ [b] /\
     b2z b = 0x43 - 0x40) /\
  (0x43 < 0x41 \/ 0x5A < 0x43 ->
   send_control upper_latin1 [0x63] sample_session = (Ok tt, sample_session)).
Proof.
  assert (H1 : upper_latin1 [0x63] = [0x43]) by reflexivity.
  assert (H2 : fd_open (master_fd sample_session) = true) by reflexivity.
  repeat (split; [assumption|]).
  exact (send_control_one_char upper_latin1 0x63 0x43 sample_session H1 H2).
Defined.

Lemma send_and_read_stale_marker_witness :
  fd_open (master_fd sample_session) = true /\
  Forall scalar (str "ls") /\
  (exists m, In m (markers sample_session) /\
             contains m (sanitize (buffer
               (apply_events [ReaderChunk [x6c; x73; x0d; x0a]] sample_session))) = true) /\
  exists bs st',
    utf8_encode (rstrip (str "ls")) = Some bs /\
    send_and_read_until_ready repr_plain (str "ls") 1000 0 (fun _ => 0%Q)
        [ReaderChunk [x6c; x73; x0d; x0a]] [] sample_session =
      (Returned (sanitize (buffer
         (apply_events [ReaderChunk [x6c; x73; x0d; x0a]] sample_session))),
       st', 0%nat) /\
    pty_input st' = pty_input sample_session ++ bs ++ [x0a] /\
    buffer st' = [].
Proof.
  assert (H1 : fd_open (master_fd sample_session) = true) by reflexivity.
  assert (H2 : Forall scalar (str "ls")) by (repeat constructor).
  assert (H3 : exists m, In m (markers sample_session) /\
             contains m (sanitize (buffer
               (apply_events [ReaderChunk [x6c; x73; x0d; x0a]] sample_session))) = true).
  { exists (str "$ "). split; [left; reflexivity | vm_compute; reflexivity]. }
  repeat (split; [assumption|]).
  exact (send_and_read_stale_marker repr_plain (str "ls") 1000 0 (fun _ => 0%Q)
           [ReaderChunk [x6c; x73; x0d; x0a]] [] sample_session H1 H2 H3).
Defined.

